(** * shell-agent: the job worker, its cancellation watcher and the
      command handlers of [http_cmd_handler.go]

    The development has four parts.

    - The data of the program: jobs, Go errors, nil-able slices, the
      launch configuration [exec.Cmd] and the environment that [os/exec]
      computes from it for the child.
    - [cmdWorker] as a transition system.  The worker is two flows of
      control, the primary flow and the watcher goroutine, which share the
      [canceled] flag, the [doneC] channel, the context and the child
      process.  Every statement that touches shared data is one step; a
      schedule is a list of events that says which flow moves next and
      what the child process and the canceller do in between.
    - The handlers [RunCmdHandler], [QueryCmdHandler] and
      [CancelCmdHandler] as functions from the registry and a request to
      a response, a new registry and the effects they cause.
    - The service wrapper of [server.go], [server.start] and
      [server.stop] under [program.Start] and [program.Stop], as a
      second transition system over the two channels and the wait
      group of the server. *)

From Stdlib Require Import ZArith Lia Ascii DecimalString.
From stdpp Require Import gmap strings list.

Local Open Scope Z_scope.
Local Open Scope string_scope.

(** ** Data model *)

(** [time.Time], as nanoseconds since the Unix epoch; [time.Unix(0, 0)]
    is [0]. *)
Definition Time := Z.

(** A Go slice: [None] is the nil slice, [Some []] an empty slice that is
    not nil.  Both have length zero. *)
Definition slice (A : Type) := option (list A).

Definition elems {A} (s : slice A) : list A := default [] s.

(** [append(s, xs...)]: with nothing to append Go returns [s] itself, so
    a nil [s] stays nil. *)
Definition append {A} (s xs : slice A) : slice A :=
  match elems xs with
  | [] => s
  | _ :: _ => Some (elems s ++ elems xs)%list
  end.

Inductive JobStatus := JSRunning | JSFinished | JSFailed | JSCanceled.

#[global] Instance JobStatus_eq_dec : EqDecision JobStatus.
Proof. solve_decision. Defined.

(** Modelled from the spec: the [Job] struct is declared outside
    [http_cmd_handler.go]; its fields are the ones the handlers and the
    worker read and write.  The cancellation handle [cancelFunc] is the
    context of the worker's transition system below. *)
Record Job := mkJob {
  Id : string;
  Cmd : string;
  Dir : string;
  Env : slice string;
  Status : JobStatus;
  CreateTime : Time;
  FinishTime : Time;
  Pid : Z;
  Stdout : string;
  Stderr : string;
  ExitCode : Z;
  Error : string
}.

Definition set_Id (v : string) (j : Job) : Job :=
  mkJob v (Cmd j) (Dir j) (Env j) (Status j) (CreateTime j) (FinishTime j)
        (Pid j) (Stdout j) (Stderr j) (ExitCode j) (Error j).
Definition set_Status (v : JobStatus) (j : Job) : Job :=
  mkJob (Id j) (Cmd j) (Dir j) (Env j) v (CreateTime j) (FinishTime j)
        (Pid j) (Stdout j) (Stderr j) (ExitCode j) (Error j).
Definition set_FinishTime (v : Time) (j : Job) : Job :=
  mkJob (Id j) (Cmd j) (Dir j) (Env j) (Status j) (CreateTime j) v
        (Pid j) (Stdout j) (Stderr j) (ExitCode j) (Error j).
Definition set_Pid (v : Z) (j : Job) : Job :=
  mkJob (Id j) (Cmd j) (Dir j) (Env j) (Status j) (CreateTime j) (FinishTime j)
        v (Stdout j) (Stderr j) (ExitCode j) (Error j).
Definition set_Stdout (v : string) (j : Job) : Job :=
  mkJob (Id j) (Cmd j) (Dir j) (Env j) (Status j) (CreateTime j) (FinishTime j)
        (Pid j) v (Stderr j) (ExitCode j) (Error j).
Definition set_Stderr (v : string) (j : Job) : Job :=
  mkJob (Id j) (Cmd j) (Dir j) (Env j) (Status j) (CreateTime j) (FinishTime j)
        (Pid j) (Stdout j) v (ExitCode j) (Error j).
Definition set_ExitCode (v : Z) (j : Job) : Job :=
  mkJob (Id j) (Cmd j) (Dir j) (Env j) (Status j) (CreateTime j) (FinishTime j)
        (Pid j) (Stdout j) (Stderr j) v (Error j).
Definition set_Error (v : string) (j : Job) : Job :=
  mkJob (Id j) (Cmd j) (Dir j) (Env j) (Status j) (CreateTime j) (FinishTime j)
        (Pid j) (Stdout j) (Stderr j) (ExitCode j) v.

(** The zero value [var job Job].  [RunCmdHandler] assigns the status
    before the job is used, so the zero value of that field does not
    matter. *)
Definition zeroJob : Job :=
  mkJob "" "" "" None JSRunning 0 0 0 "" "" 0 "".

(** *** Errors and process states *)

(** How a child process ended, as [os.ProcessState] reports it: with an
    exit status ([Exited()] is true and [ExitStatus()] is the code), or
    through a signal ([Exited()] is false; [desc] is the text of the
    state, such as [signal: killed]). *)
Inductive ProcessState :=
| Exited (code : Z)
| Signaled (desc : string).

#[global] Instance ProcessState_eq_dec : EqDecision ProcessState.
Proof. solve_decision. Defined.

Definition itoa (n : Z) : string := NilZero.string_of_int (Z.to_int n).

Definition ProcessState_String (ps : ProcessState) : string :=
  match ps with
  | Exited code => "exit status " +:+ itoa code
  | Signaled desc => desc
  end.

(** A non-nil Go [error]: an [*exec.ExitError], or any other error with
    its message.  A nil error is [None : option error]. *)
Inductive error :=
| ExitError (ps : ProcessState)
| errorString (msg : string).

(** [err.Error()] on a non-nil error. *)
Definition err_Error (e : error) : string :=
  match e with
  | ExitError ps => ProcessState_String ps
  | errorString msg => msg
  end.

(** The result of [cmd.Wait()] for a child that ended in state [ps].
    Both output streams are in-memory buffers, so the result is decided
    by the process state: nil for exit status 0, an [*exec.ExitError]
    otherwise. *)
Definition waitError (ps : ProcessState) : option error :=
  match ps with
  | Exited 0 => None
  | _ => Some (ExitError ps)
  end.

(** *** The launch configuration *)

(** [strings.IndexByte(s, c)], and [strings.Index(s, sep)] for a
    separator of one byte: the index of the first [c] in [s], and -1
    when there is none. *)
Fixpoint IndexByte (s : string) (c : Ascii.ascii) : Z :=
  match s with
  | EmptyString => -1
  | String a s' =>
      if Ascii.eqb a c then 0
      else let i := IndexByte s' c in
           if (i <? 0)%Z then -1 else i + 1
  end.

(** The package [os/exec] of the Go standard library, as far as
    [cmdWorker] uses it: the launch configuration [exec.Cmd], and the
    environment that [cmd.Start()] computes for the child with
    [environ()], [dedupEnv] and [addCriticalEnv]. *)
Module exec.
Record Cmd := mkCmd { Args : list string; Dir : string; Env : slice string }.

(** [exec.Command(name, arg...)]: [Dir] is empty and [Env] is nil. *)
Definition Command (name : string) (arg : list string) : Cmd :=
  mkCmd (name :: arg) "" None.

Section environ.
(** What the package reads from its surroundings: [runtime.GOOS],
    [os.Environ()], [filepath.Abs] (the absolute path, or the error),
    [strings.ToLower], [strings.EqualFold] and [os.Getenv]. *)
Variable GOOS : string.
Variable Environ : list string.
Variable Abs : string -> string + error.
Variable ToLower : string -> string.
Variable EqualFold : string -> string -> bool.
Variable Getenv : string -> string.

(** One round of the loop of [dedupEnvCase], for the entry [kv]: [out]
    is the output so far, [saw] the set of keys met so far, [err] the
    error so far.  An entry with a NUL byte is dropped with an error
    (except on Plan 9); an entry without [=] is kept unless it is
    empty; a first [=] at index 0 belongs to the key; an entry whose
    key was met before is dropped. *)
Definition dedupStep (caseInsensitive nulOK : bool) (kv : string)
    (acc : list string * gset string * option error)
    : list string * gset string * option error :=
  let '(out, saw, err) := acc in
  if negb nulOK && negb (IndexByte kv Ascii.zero =? -1)%Z
  then (out, saw, Some (errorString "exec: environment variable contains NUL"))
  else
    let i := IndexByte kv "="%char in
    let i := if (i =? 0)%Z
             then IndexByte (match kv with
                             | String _ rest => rest
                             | EmptyString => EmptyString
                             end) "="%char + 1
             else i in
    if (i <? 0)%Z
    then (if String.eqb kv "" then acc else ((out ++ [kv])%list, saw, err))
    else
      let k := String.substring 0 (Z.to_nat i) kv in
      let k := if caseInsensitive then ToLower k else k in
      if bool_decide (k ∈ saw) then acc
      else ((out ++ [kv])%list, {[ k ]} ∪ saw, err).

(** [dedupEnvCase(caseInsensitive, nulOK, env)]: the loop runs from the
    last entry of [env] to the first, so that the last entry of each key
    is the one that is kept; the output is then reversed, which restores
    the order of [env]. *)
Definition dedupEnvCase (caseInsensitive nulOK : bool) (env : list string)
    : list string * option error :=
  let '(out, _, err) := foldr (dedupStep caseInsensitive nulOK) ([], ∅, None) env in
  (rev out, err).

Definition dedupEnv (env : list string) : list string * option error :=
  dedupEnvCase (String.eqb GOOS "windows") (String.eqb GOOS "plan9") env.

(** [addCriticalEnv(env)]: on Windows an entry for [SYSTEMROOT] is
    added at the end, unless [env] has one under any spelling of the
    key. *)
Definition addCriticalEnv (env : list string) : list string :=
  if negb (String.eqb GOOS "windows") then env
  else if existsb (λ kv, let i := IndexByte kv "="%char in
                         (0 <=? i)%Z &&
                         EqualFold (String.substring 0 (Z.to_nat i) kv) "SYSTEMROOT") env
       then env
       else (env ++ ["SYSTEMROOT=" +:+ Getenv "SYSTEMROOT"])%list.

(** [(c *Cmd) environ()]: the environment the command would be run in,
    and the error met on the way.  A nil [c.Env] stands for the
    environment of the current process, to which, on systems other than
    Windows and Plan 9, [PWD] is appended when [c.Dir] is set; any list
    then goes through [dedupEnv] and [addCriticalEnv]. *)
Definition environ (c : Cmd) : list string * option error :=
  let '(env, err) :=
    match Env c with
    | Some env => (env, None)
    | None =>
        if String.eqb (Dir c) "" then (Environ, None)
        else if String.eqb GOOS "windows" || String.eqb GOOS "plan9"
             then (Environ, None)
             else match Abs (Dir c) with
                  | inl pwd => ((Environ ++ ["PWD=" +:+ pwd])%list, None)
                  | inr absErr => (Environ, Some absErr)
                  end
    end in
  let '(env, dedupErr) := dedupEnv env in
  (addCriticalEnv env,
   match err with
   | Some e => Some e
   | None => dedupErr
   end).
End environ.
End exec.

(** What the operating system, the library and the clock answer during
    one run of the worker. *)
Inductive StartResult :=
| StartErr (msg : string)
| StartOk (pid : Z).

Record World := mkWorld {
  GOOS : string;                        (* [runtime.GOOS] *)
  Environ : list string;                (* [os.Environ()] in the agent *)
  Abs : string -> string + error;       (* [filepath.Abs] *)
  ToLower : string -> string;           (* [strings.ToLower] *)
  EqualFold : string -> string -> bool; (* [strings.EqualFold] *)
  Getenv : string -> string;            (* [os.Getenv] in the agent *)
  startResult : StartResult;            (* the result of [cmd.Start()] *)
  now : Time                            (* [time.Now()] in the deferred function *)
}.

(** [dedupEnv], [addCriticalEnv] and [environ()] in the world [w]. *)
Definition dedupEnv (w : World) (env : list string) : list string * option error :=
  exec.dedupEnv (GOOS w) (ToLower w) env.

Definition addCriticalEnv (w : World) (env : list string) : list string :=
  exec.addCriticalEnv (GOOS w) (EqualFold w) (Getenv w) env.

Definition environ (w : World) (c : exec.Cmd) : list string * option error :=
  exec.environ (GOOS w) (Environ w) (Abs w) (ToLower w) (EqualFold w) (Getenv w) c.

(** The environment [cmd.Start()] hands to [os.StartProcess].  [Start]
    returns the error of [environ()], if there is one, before anything
    is spawned: a child exists only for a list that came without an
    error. *)
Definition spawnEnv (w : World) (c : exec.Cmd) : option (list string) :=
  match environ w c with
  | (env, None) => Some env
  | (_, Some _) => None
  end.

Arguments spawnEnv : simpl never.

(** Lines 124-134 of [cmdWorker]: the command is framed for the platform
    shell, then the working directory and the environment are set. *)
Definition buildCmd (goos : string) (job : Job) : exec.Cmd :=
  let cmd :=
    if String.eqb goos "windows"
    then exec.Command "cmd" ["/c"; Cmd job]
    else exec.Command "sh" ["-c"; Cmd job] in
  let cmd := exec.mkCmd (exec.Args cmd) (Dir job) (exec.Env cmd) in
  exec.mkCmd (exec.Args cmd) (exec.Dir cmd) (append (exec.Env cmd) (Env job)).

(** ** [cmdWorker] as a transition system *)

(** The child process: not spawned, running, ended but not yet waited
    for, and waited for. *)
Inductive Proc :=
| NotStarted
| Alive
| Terminated (ps : ProcessState)
| Reaped (ps : ProcessState).

(** Program points of the primary flow, named by the source line of the
    statement that is executed next.  [L115] to [L117] are the deferred
    function; it runs on every way out of [cmdWorker], a panic included. *)
Inductive MainPC :=
| L137 | L140 | L141 | L145 | L150 | L161 | L162 | L163 | L167 | L170
| L173 | L174 | L178 | L182 | L184 | L185 | L115 | L116 | L117
| Returned | Panicked.

(** Program points of the watcher goroutine of lines 150-158. *)
Inductive WatchPC := W0 | W151 | W153 | W154 | Wend.

#[global] Instance MainPC_eq_dec : EqDecision MainPC.
Proof. solve_decision. Defined.
#[global] Instance WatchPC_eq_dec : EqDecision WatchPC.
Proof. solve_decision. Defined.

(** What the run has done so far: calls into [os/exec] and writes to the
    fields of the job, in the order they happened. *)
Inductive Field :=
| FPid | FExitCode | FError | FStatus (v : JobStatus) | FFinishTime
| FStdout | FStderr.

Inductive Obs :=
| CallStart (ok : bool)
| CallWait
| CallKill
| CloseDone
| Wrote (f : Field)
| NilDeref.

#[global] Instance Field_eq_dec : EqDecision Field.
Proof. solve_decision. Defined.
#[global] Instance Obs_eq_dec : EqDecision Obs.
Proof. solve_decision. Defined.

Record State := mkState {
  job : Job;                      (* the shared [*Job] *)
  err : option error;             (* the local [err] *)
  stdout : string;                (* the buffer [stdout] *)
  stderr : string;                (* the buffer [stderr] *)
  canceled : bool;                (* the local [canceled], shared with the watcher *)
  doneC : bool;                   (* [doneC] has been closed *)
  ctxDone : bool;                 (* [ctx.Done()] is closed: [job.cancelFunc] was invoked *)
  proc : Proc;
  childEnv : option (list string); (* the environment the child was spawned with *)
  mpc : MainPC;
  wpc : WatchPC;
  cancelSeen : bool;              (* the value of [canceled] tested at line 182 *)
  panicking : bool;               (* the primary flow is unwinding from a panic *)
  log : list Obs
}.

Definition with_job (f : Job -> Job) (s : State) : State :=
  mkState (f (job s)) (err s) (stdout s) (stderr s) (canceled s) (doneC s)
    (ctxDone s) (proc s) (childEnv s) (mpc s) (wpc s) (cancelSeen s)
    (panicking s) (log s).
Definition with_err (v : option error) (s : State) : State :=
  mkState (job s) v (stdout s) (stderr s) (canceled s) (doneC s)
    (ctxDone s) (proc s) (childEnv s) (mpc s) (wpc s) (cancelSeen s)
    (panicking s) (log s).
Definition with_stdout (v : string) (s : State) : State :=
  mkState (job s) (err s) v (stderr s) (canceled s) (doneC s)
    (ctxDone s) (proc s) (childEnv s) (mpc s) (wpc s) (cancelSeen s)
    (panicking s) (log s).
Definition with_stderr (v : string) (s : State) : State :=
  mkState (job s) (err s) (stdout s) v (canceled s) (doneC s)
    (ctxDone s) (proc s) (childEnv s) (mpc s) (wpc s) (cancelSeen s)
    (panicking s) (log s).
Definition with_canceled (v : bool) (s : State) : State :=
  mkState (job s) (err s) (stdout s) (stderr s) v (doneC s)
    (ctxDone s) (proc s) (childEnv s) (mpc s) (wpc s) (cancelSeen s)
    (panicking s) (log s).
Definition with_doneC (v : bool) (s : State) : State :=
  mkState (job s) (err s) (stdout s) (stderr s) (canceled s) v
    (ctxDone s) (proc s) (childEnv s) (mpc s) (wpc s) (cancelSeen s)
    (panicking s) (log s).
Definition with_ctxDone (v : bool) (s : State) : State :=
  mkState (job s) (err s) (stdout s) (stderr s) (canceled s) (doneC s)
    v (proc s) (childEnv s) (mpc s) (wpc s) (cancelSeen s)
    (panicking s) (log s).
Definition with_proc (v : Proc) (s : State) : State :=
  mkState (job s) (err s) (stdout s) (stderr s) (canceled s) (doneC s)
    (ctxDone s) v (childEnv s) (mpc s) (wpc s) (cancelSeen s)
    (panicking s) (log s).
Definition with_childEnv (v : option (list string)) (s : State) : State :=
  mkState (job s) (err s) (stdout s) (stderr s) (canceled s) (doneC s)
    (ctxDone s) (proc s) v (mpc s) (wpc s) (cancelSeen s)
    (panicking s) (log s).
Definition goto (v : MainPC) (s : State) : State :=
  mkState (job s) (err s) (stdout s) (stderr s) (canceled s) (doneC s)
    (ctxDone s) (proc s) (childEnv s) v (wpc s) (cancelSeen s)
    (panicking s) (log s).
Definition wgoto (v : WatchPC) (s : State) : State :=
  mkState (job s) (err s) (stdout s) (stderr s) (canceled s) (doneC s)
    (ctxDone s) (proc s) (childEnv s) (mpc s) v (cancelSeen s)
    (panicking s) (log s).
Definition with_cancelSeen (v : bool) (s : State) : State :=
  mkState (job s) (err s) (stdout s) (stderr s) (canceled s) (doneC s)
    (ctxDone s) (proc s) (childEnv s) (mpc s) (wpc s) v
    (panicking s) (log s).
Definition with_panicking (v : bool) (s : State) : State :=
  mkState (job s) (err s) (stdout s) (stderr s) (canceled s) (doneC s)
    (ctxDone s) (proc s) (childEnv s) (mpc s) (wpc s) (cancelSeen s)
    v (log s).
Definition record (o : Obs) (s : State) : State :=
  mkState (job s) (err s) (stdout s) (stderr s) (canceled s) (doneC s)
    (ctxDone s) (proc s) (childEnv s) (mpc s) (wpc s) (cancelSeen s)
    (panicking s) (log s ++ [o])%list.

(** The state in which [cmdWorker(ctx, job)] is entered: [err] is nil,
    both buffers are empty, [canceled] is false, [doneC] is open. *)
Definition init (j : Job) : State :=
  mkState j None "" "" false false false NotStarted None L137 W0
    false false [].

(** A write to one field of the job. *)
Definition write (f : Field) (upd : Job -> Job) (s : State) : State :=
  record (Wrote f) (with_job upd s).

(** [job.Error = err.Error()], then continue at [next].  With a nil
    [err] the method call dereferences nil: the flow panics, and control
    passes to the deferred function. *)
Definition assignError (next : MainPC) (s : State) : State :=
  match err s with
  | Some e => goto next (write FError (set_Error (err_Error e)) s)
  | None => goto L115 (with_panicking true (record NilDeref s))
  end.

(** What [cmd.Process.Kill()] does to a running child: on Windows the
    process is terminated with exit code 1, elsewhere it receives
    SIGKILL. *)
Definition killed (goos : string) : ProcessState :=
  if String.eqb goos "windows" then Exited 1 else Signaled "signal: killed".

(** One statement of the primary flow.  [None]: the flow cannot move
    (it is blocked in [cmd.Wait()], or it has ended). *)
Definition stepMain (w : World) (s : State) : option State :=
  match mpc s with
  | L137 => (* err = cmd.Start() *)
      match startResult w with
      | StartErr msg =>
          Some (goto L140 (with_err (Some (errorString msg))
                  (record (CallStart false) s)))
      | StartOk _ => (* the child runs, in the environment of [environ()] *)
          Some (goto L145 (with_proc Alive
                  (with_childEnv (spawnEnv w (buildCmd (GOOS w) (job s)))
                     (record (CallStart true) s))))
      end
  | L140 => Some (assignError L141 s)
  | L141 => (* job.Status = JSFailed; return *)
      Some (goto L115 (write (FStatus JSFailed) (set_Status JSFailed) s))
  | L145 => (* job.Pid = cmd.Process.Pid *)
      match startResult w with
      | StartOk pid => Some (goto L150 (write FPid (set_Pid pid) s))
      | StartErr _ => None
      end
  | L150 => (* go func() { select ... }() *)
      Some (goto L161 (wgoto W151 s))
  | L161 => (* err = cmd.Wait() *)
      match proc s with
      | Terminated ps =>
          Some (goto L162 (with_err (waitError ps) (with_proc (Reaped ps)
                  (record CallWait s))))
      | _ => None
      end
  | L162 => (* close(doneC) *)
      Some (goto L163 (with_doneC true (record CloseDone s)))
  | L163 => (* if err != nil *)
      Some (goto (match err s with Some _ => L167 | None => L178 end) s)
  | L167 => (* if err is an exec.ExitError ee and ee.Exited() *)
      match err s with
      | Some (ExitError (Exited _)) => Some (goto L170 s)
      | _ => Some (goto L173 s)
      end
  | L170 => (* job.ExitCode = ee.Sys().(syscall.WaitStatus).ExitStatus() *)
      match err s with
      | Some (ExitError (Exited code)) =>
          Some (goto L173 (write FExitCode (set_ExitCode code) s))
      | _ => None
      end
  | L173 => Some (assignError L174 s)
  | L174 => Some (goto L182 (write (FStatus JSFailed) (set_Status JSFailed) s))
  | L178 => Some (goto L182 (write (FStatus JSFinished) (set_Status JSFinished) s))
  | L182 => (* if canceled *)
      Some (goto (if canceled s then L184 else L115)
              (with_cancelSeen (canceled s) s))
  | L184 => Some (assignError L185 s)
  | L185 => Some (goto L115 (write (FStatus JSCanceled) (set_Status JSCanceled) s))
  | L115 => (* job.FinishTime = time.Now() *)
      Some (goto L116 (write FFinishTime (set_FinishTime (now w)) s))
  | L116 => Some (goto L117 (write FStdout (set_Stdout (stdout s)) s))
  | L117 =>
      Some (goto (if panicking s then Panicked else Returned)
              (write FStderr (set_Stderr (stderr s)) s))
  | Returned | Panicked => None
  end.

(** One statement of the watcher.  At the [select] the watcher blocks
    until [ctx.Done()] or [doneC] is closed; when both are, Go picks one
    of the two cases, here by [pickCancel]. *)
Definition stepWatch (w : World) (pickCancel : bool) (s : State) : option State :=
  match wpc s with
  | W0 => None
  | W151 =>
      match ctxDone s, doneC s with
      | true, true => Some (wgoto (if pickCancel then W153 else Wend) s)
      | true, false => Some (wgoto W153 s)
      | false, true => Some (wgoto Wend s)
      | false, false => None
      end
  | W153 => (* canceled = true *)
      Some (wgoto W154 (with_canceled true s))
  | W154 => (* cmd.Process.Kill() *)
      Some (wgoto Wend
              (with_proc (match proc s with
                          | Alive => Terminated (killed (GOOS w))
                          | p => p
                          end)
                 (record CallKill s)))
  | Wend => None
  end.

(** A schedule is a list of events: a flow of the worker takes its next
    step, [job.cancelFunc()] is invoked from outside, or the running
    child ends by itself or writes to one of its output streams. *)
Inductive Event :=
| EvMain
| EvWatch (pickCancel : bool)
| EvCancel
| EvExit (ps : ProcessState)
| EvStdout (data : string)
| EvStderr (data : string).

#[global] Instance Event_eq_dec : EqDecision Event.
Proof. solve_decision. Defined.

Definition step (w : World) (s : State) (ev : Event) : option State :=
  match ev with
  | EvMain => stepMain w s
  | EvWatch b => stepWatch w b s
  | EvCancel => Some (with_ctxDone true s)
  | EvExit ps =>
      match proc s with
      | Alive => Some (with_proc (Terminated ps) s)
      | _ => None
      end
  | EvStdout data =>
      match proc s with
      | Alive => Some (with_stdout (stdout s +:+ data) s)
      | _ => None
      end
  | EvStderr data =>
      match proc s with
      | Alive => Some (with_stderr (stderr s +:+ data) s)
      | _ => None
      end
  end.

(** [cmdWorker(ctx, job)] under a schedule, from the state [s] on.  The
    flows are interleaved statement by statement, and a read of shared
    data returns the value written last.  [None]: the schedule asks a
    flow to move that cannot. *)
Fixpoint cmdWorker (w : World) (evs : list Event) (s : State) : option State :=
  match evs with
  | [] => Some s
  | ev :: evs' =>
      match step w s ev with
      | Some s' => cmdWorker w evs' s'
      | None => None
      end
  end.

(** The worker has ended: the primary flow has returned or has left
    [cmdWorker] through a panic. *)
Definition ended (s : State) : bool :=
  match mpc s with
  | Returned | Panicked => true
  | _ => false
  end.

(** ** The registry and the handlers *)

(** Modelled from the spec: the response envelope and its error
    categories are declared outside [http_cmd_handler.go].
    [NewResponse()] carries no error; [SetError] sets the category and
    the message; [SetData] sets the payload. *)
Inductive ErrorCode :=
| ECNone | ECUnknown | ECInvalidParam | ECJobNotFound | ECJobNotRunning.

#[global] Instance ErrorCode_eq_dec : EqDecision ErrorCode.
Proof. solve_decision. Defined.

Inductive Data :=
| DNone
| DJob (j : Job)                         (* [QueryCmdRes]: the job as it is now *)
| DJobs (js : list Job)                  (* the result of [GetAll] *)
| DSyncRun (id : string)                 (* [SyncRunCmdRes]: the job, once [cmdWorker] has returned *)
| DAsyncRun (id : string) (createTime : Time). (* [AsyncRuncmdRes] *)

Record Response := mkResponse {
  Code : ErrorCode;
  Msg : string;
  Payload : Data
}.

Definition NewResponse : Response := mkResponse ECNone "" DNone.
Definition SetError (c : ErrorCode) (msg : string) (r : Response) : Response :=
  mkResponse c msg (Payload r).
Definition SetData (d : Data) (r : Response) : Response :=
  mkResponse (Code r) (Msg r) d.

(** Modelled from the spec: [JobBookkeeper] is declared outside
    [http_cmd_handler.go].  It is a map from job identifier to job;
    [Add] inserts under the job's identifier, [Get] is the point lookup
    (nil when absent) and [GetAll] lists every job.  The map here holds
    the current contents of each registered job. *)
Definition JobBookkeeper : Type := gmap string Job.

Definition Add (j : Job) (bk : JobBookkeeper) : JobBookkeeper := <[Id j := j]> bk.
Definition Get (id : string) (bk : JobBookkeeper) : option Job := bk !! id.
Definition GetAll (bk : JobBookkeeper) : list Job := (map_to_list bk).*2.

Module RunCmdReq.
Record t := mk { Cmd : string; Async : bool; Dir : string; Env : slice string }.
End RunCmdReq.

(** What a handler leaves behind besides its response: a worker to run
    on a job (inline, or as a goroutine when [async]), or an invocation
    of a job's [cancelFunc]. *)
Inductive Effect :=
| RunWorker (j : Job) (async : bool)
| InvokeCancel (j : Job).

Record Result := mkResult {
  resp : Response;
  registry : JobBookkeeper;
  effects : list Effect
}.

(** [ServeJSON(w, r); return] on a path that changed nothing. *)
Definition reply (bk : JobBookkeeper) (r : Response) : Result := mkResult r bk [].

(** The answers of the library calls [RunCmdHandler] makes: reading the
    body and decoding it ([None] when the call fails), the clock, and
    the generated identifier ([None] when [uuid.NewV4] fails). *)
Record RunCall := mkRunCall {
  readAll : option string;
  unmarshal : option RunCmdReq.t;
  timeNow : Time;
  newV4 : option string
}.

(** Lines 73-79: the job before it is given an identifier.  All other
    fields keep their zero value. *)
Definition newJob (req : RunCmdReq.t) (t : Time) : Job :=
  mkJob (Id zeroJob) (RunCmdReq.Cmd req) (RunCmdReq.Dir req) (RunCmdReq.Env req)
        JSRunning t 0 (Pid zeroJob) (Stdout zeroJob) (Stderr zeroJob)
        (ExitCode zeroJob) (Error zeroJob).

Definition RunCmdHandler (bk : JobBookkeeper) (c : RunCall) : Result :=
  match readAll c with
  | None => reply bk (SetError ECUnknown "failed to read body" NewResponse)
  | Some _ =>
    match unmarshal c with
    | None => reply bk (SetError ECUnknown "failed to unmarshall data" NewResponse)
    | Some req =>
      if String.eqb (RunCmdReq.Cmd req) ""
      then reply bk (SetError ECInvalidParam "param cmd is empty" NewResponse)
      else
        let job := newJob req (timeNow c) in
        match newV4 c with
        | None => reply bk (SetError ECUnknown "failed to generate uuid" NewResponse)
        | Some u4 =>
          let job := set_Id u4 job in
          mkResult
            (SetData (if RunCmdReq.Async req
                      then DAsyncRun (Id job) (CreateTime job)
                      else DSyncRun (Id job)) NewResponse)
            (Add job bk)
            [RunWorker job (RunCmdReq.Async req)]
        end
    end
  end.

Section FormHandlers.
(** [strings.TrimSpace], which strips leading and trailing white space. *)
Variable TrimSpace : string -> string.

(** [formId] is [r.FormValue("id")], empty when the request has no
    such value. *)
Definition QueryCmdHandler (bk : JobBookkeeper) (formId : string) : Result :=
  let id := TrimSpace formId in
  if String.eqb id ""
  then reply bk (SetError ECInvalidParam "param id is empty" NewResponse)
  else
    match Get id bk with
    | None => reply bk (SetError ECJobNotFound ("job not found: " +:+ id) NewResponse)
    | Some job => reply bk (SetData (DJob job) NewResponse)
    end.

Definition ListCmdHandler (bk : JobBookkeeper) : Result :=
  reply bk (SetData (DJobs (GetAll bk)) NewResponse).

Definition CancelCmdHandler (bk : JobBookkeeper) (formId : string) : Result :=
  let id := TrimSpace formId in
  match Get id bk with
  | None => reply bk (SetError ECJobNotFound ("job not found: " +:+ id) NewResponse)
  | Some job =>
    if decide (Status job = JSRunning)
    then mkResult NewResponse bk [InvokeCancel job]
    else reply bk (SetError ECJobNotRunning ("job is not running: " +:+ id) NewResponse)
  end.
End FormHandlers.

(** [strings.TrimSpace] on text whose white space is ASCII: tab, line
    feed, vertical tab, form feed, carriage return and space. *)
Definition isAsciiSpace (c : Ascii.ascii) : bool :=
  let n := Ascii.nat_of_ascii c in
  ((9 <=? n)%nat && (n <=? 13)%nat) || (n =? 32)%nat.

Fixpoint trimLeft (s : string) : string :=
  match s with
  | String c s' => if isAsciiSpace c then trimLeft s' else s
  | EmptyString => EmptyString
  end.

Fixpoint trimRight (s : string) : string :=
  match s with
  | EmptyString => EmptyString
  | String c s' =>
      match trimRight s' with
      | EmptyString => if isAsciiSpace c then EmptyString else String c EmptyString
      | t => String c t
      end
  end.

Definition trimSpaceAscii (s : string) : string := trimRight (trimLeft s).

(** ** The outline of the primary flow

    What holds of the job and of the shared data at each program point,
    for a run that began on the job [j0] in the world [w]. *)

(** The status the exit classification of lines 163-179 assigns. *)
Definition classify (e : option error) : JobStatus :=
  match e with
  | Some _ => JSFailed
  | None => JSFinished
  end.

Definition expStatus (j0 : Job) (s : State) : JobStatus :=
  match mpc s with
  | L137 | L140 | L141 | L145 | L150 | L161 | L162 | L163 | L167 | L170
  | L173 | L174 | L178 => Status j0
  | L182 | L184 | L185 => classify (err s)
  | L115 | L116 | L117 | Returned | Panicked =>
      if cancelSeen s && negb (panicking s) then JSCanceled else classify (err s)
  end.

Definition expError (j0 : Job) (s : State) : string :=
  match mpc s with
  | L137 | L140 | L145 | L150 | L161 | L162 | L163 | L167 | L170 | L173 =>
      Error j0
  | _ =>
      match err s with
      | Some e => err_Error e
      | None => Error j0
      end
  end.

Definition expExitCode (j0 : Job) (s : State) : Z :=
  match mpc s with
  | L137 | L140 | L141 | L145 | L150 | L161 | L162 | L163 | L167 | L170 =>
      ExitCode j0
  | _ =>
      match err s with
      | Some (ExitError (Exited code)) => code
      | _ => ExitCode j0
      end
  end.

Definition expPid (w : World) (j0 : Job) (s : State) : Z :=
  match mpc s with
  | L137 | L140 | L141 | L145 => Pid j0
  | _ =>
      match startResult w with
      | StartOk pid => pid
      | StartErr _ => Pid j0
      end
  end.

(** The deferred function has assigned [job.FinishTime]. *)
Definition finishWritten (pc : MainPC) : bool :=
  match pc with
  | L116 | L117 | Returned | Panicked => true
  | _ => false
  end.

(** How often [o] occurs in a log. *)
Definition occ (o : Obs) (l : list Obs) : nat :=
  length (filter (λ x, x = o) l).

Definition unseen (s : State) : Prop :=
  cancelSeen s = false ∧ panicking s = false.

Definition started (w : World) : bool :=
  match startResult w with
  | StartOk _ => true
  | StartErr _ => false
  end.

(** The error [cmd.Start()] returns. *)
Definition startError (w : World) : option error :=
  match startResult w with
  | StartErr msg => Some (errorString msg)
  | StartOk _ => None
  end.

Definition isNil (e : option error) : bool :=
  match e with
  | None => true
  | Some _ => false
  end.

(** [cmd.Start()] has failed: there is no child, no watcher, and
    nothing can set [canceled]. *)
Definition failed (w : World) (s : State) : Prop :=
  started w = false ∧ err s = startError w ∧
  proc s = NotStarted ∧ wpc s = W0 ∧ canceled s = false ∧
  childEnv s = None ∧ unseen s.

(** The child has been spawned and [cmd.Wait()] has not returned. *)
Definition running (w : World) (s : State) : Prop :=
  started w = true ∧ err s = None ∧
  match proc s with
  | Alive | Terminated _ => True
  | _ => False
  end.

(** [cmd.Wait()] has returned, with the error of the child's state. *)
Definition waited (w : World) (s : State) : Prop :=
  started w = true ∧ wpc s ≠ W0 ∧
  match proc s with
  | Reaped ps => err s = waitError ps
  | _ => False
  end.

(** The body of [cmdWorker] has been left: after a failed start, or
    after the test of [canceled], where a flow that saw the flag set
    panics exactly when [err] is nil. *)
Definition final (w : World) (s : State) : Prop :=
  if started w
  then waited w s ∧
       if cancelSeen s then panicking s = isNil (err s)
       else panicking s = false
  else failed w s.

Definition ctl (w : World) (j0 : Job) (s : State) : Prop :=
  match mpc s with
  | L137 =>
      job s = j0 ∧ err s = None ∧ proc s = NotStarted ∧ wpc s = W0 ∧
      canceled s = false ∧ childEnv s = None ∧ unseen s
  | L140 | L141 => failed w s
  | L145 | L150 => running w s ∧ wpc s = W0 ∧ canceled s = false ∧ unseen s
  | L161 => running w s ∧ wpc s ≠ W0 ∧ unseen s
  | L162 | L163 | L182 => waited w s ∧ unseen s
  | L167 | L173 | L174 => waited w s ∧ unseen s ∧ isNil (err s) = false
  | L170 =>
      waited w s ∧ unseen s ∧
      match err s with
      | Some (ExitError (Exited _)) => True
      | _ => False
      end
  | L178 => waited w s ∧ unseen s ∧ err s = None
  | L184 => waited w s ∧ cancelSeen s = true ∧ panicking s = false
  | L185 =>
      waited w s ∧ cancelSeen s = true ∧ panicking s = false ∧
      isNil (err s) = false
  | L115 | L116 | L117 => final w s
  | Returned => final w s ∧ panicking s = false
  | Panicked => final w s ∧ panicking s = true
  end.

Record Inv (w : World) (j0 : Job) (s : State) : Prop := mkInv {
  inv_status : Status (job s) = expStatus j0 s;
  inv_error : Error (job s) = expError j0 s;
  inv_exit : ExitCode (job s) = expExitCode j0 s;
  inv_pid : Pid (job s) = expPid w j0 s;
  inv_ftime : FinishTime (job s) =
              if finishWritten (mpc s) then now w else FinishTime j0;
  inv_ctl : ctl w j0 s;
  inv_flag : canceled s = true → ctxDone s = true ∧ (wpc s = W154 ∨ wpc s = Wend);
  inv_watch : wpc s = W153 ∨ wpc s = W154 → ctxDone s = true;
  inv_seen : cancelSeen s = true → canceled s = true;
  inv_env : ∀ env, childEnv s = Some env →
                   spawnEnv w (buildCmd (GOOS w) j0) = Some env;
  inv_finish : occ (Wrote FFinishTime) (log s) =
               if finishWritten (mpc s) then 1%nat else 0%nat;
  inv_nil : occ NilDeref (log s) = if panicking s then 1%nat else 0%nat;
  inv_wait : occ CallWait (log s) =
             match proc s with Reaped _ => 1%nat | _ => 0%nat end
}.

(** The order in which the status moves: from [JSRunning] to the exit
    classification, and from there to [JSCanceled]. *)
Definition rank (st : JobStatus) : nat :=
  match st with
  | JSRunning => 0
  | JSFinished | JSFailed => 1
  | JSCanceled => 2
  end.

Definition status_le (a b : JobStatus) : Prop :=
  a = b ∨ (rank a < rank b)%nat.

(** An upper bound on the statements the primary flow still has to
    execute. *)
Definition remaining (pc : MainPC) : nat :=
  match pc with
  | L137 => 20 | L140 => 19 | L141 => 18
  | L145 => 19 | L150 => 18 | L161 => 17 | L162 => 16 | L163 => 15
  | L167 => 14 | L170 => 13 | L173 => 12 | L174 => 11 | L178 => 11
  | L182 => 10 | L184 => 9 | L185 => 8
  | L115 => 3 | L116 => 2 | L117 => 1
  | Returned | Panicked => 0
  end.

(** The primary flow is not held back by the child: the start has
    failed, or the child has ended. *)
Definition canFinish (w : World) (s : State) : Prop :=
  started w = false ∨
  match proc s with
  | Terminated _ | Reaped _ => True
  | _ => False
  end.

(** The child has been spawned and the primary flow has not yet tested
    [canceled] at line 182. *)
Definition untested (pc : MainPC) : bool :=
  match pc with
  | L145 | L150 | L161 | L162 | L163 | L167 | L170 | L173 | L174 | L178
  | L182 => true
  | _ => false
  end.

(** The child has ended in state [ps]. *)
Definition endedWith (ps : ProcessState) (s : State) : Prop :=
  proc s = Terminated ps ∨ proc s = Reaped ps.

(** The job [RunCmdHandler] hands to [cmdWorker]: lines 73-87. *)
Definition createdJob (req : RunCmdReq.t) (t : Time) (u4 : string) : Job :=
  set_Id u4 (newJob req t).

(** ** Readings of the specification that the code does not follow *)

(** "Once the status holds a terminal value, no later write changes
    it." *)
Definition status_written_once : Prop :=
  ∀ w j evs1 evs2 s1 s2,
    Status j = JSRunning →
    cmdWorker w evs1 (init j) = Some s1 →
    cmdWorker w evs2 s1 = Some s2 →
    Status (job s1) ≠ JSRunning →
    Status (job s2) = Status (job s1).

(** "The finish time is never set on a job for which no process ever
    ran." *)
Definition finish_only_after_process : Prop :=
  ∀ w j evs s,
    cmdWorker w evs (init j) = Some s →
    occ (Wrote FFinishTime) (log s) ≠ 0%nat →
    ∃ ps, proc s = Reaped ps.




(** ** Lists of overrides that [dedupEnv] leaves alone *)




(** ** Sample runs *)

(** [strings.ToLower] and [strings.EqualFold] on ASCII text. *)
Definition lowerAscii (c : Ascii.ascii) : Ascii.ascii :=
  let n := Ascii.nat_of_ascii c in
  if (65 <=? n)%nat && (n <=? 90)%nat then Ascii.ascii_of_nat (n + 32) else c.

Fixpoint toLowerAscii (s : string) : string :=
  match s with
  | EmptyString => EmptyString
  | String c s' => String (lowerAscii c) (toLowerAscii s')
  end.

Definition equalFoldAscii (a b : string) : bool :=
  String.eqb (toLowerAscii a) (toLowerAscii b).

(** [os.Getenv] in a process whose environment is [environ]: the value
    of the first entry for the key, and the empty string when there is
    none. *)
Fixpoint getenvIn (environ : list string) (key : string) : string :=
  match environ with
  | [] => ""
  | kv :: rest =>
      let i := IndexByte kv "="%char in
      if (0 <=? i)%Z && String.eqb (String.substring 0 (Z.to_nat i) kv) key
      then String.substring (Z.to_nat i + 1) (String.length kv) kv
      else getenvIn rest key
  end.

(** [filepath.Abs] on a POSIX system, in a process whose working
    directory is [wd], for paths that are clean already. *)
Definition absIn (wd path : string) : string + error :=
  match path with
  | String "/"%char _ => inl path
  | _ => inl (wd +:+ "/" +:+ path)
  end.

Definition linuxEnviron : list string := ["PATH=/usr/bin:/bin"; "HOME=/root"].

Definition linux (r : StartResult) : World :=
  mkWorld "linux" linuxEnviron (absIn "/srv/agent") toLowerAscii equalFoldAscii
          (getenvIn linuxEnviron) r 1700000000.

Definition sampleReq : RunCmdReq.t :=
  RunCmdReq.mk "sleep 5; exit 7" true "/tmp" (Some ["LANG=C"]).

Definition sampleJob : Job :=
  createdJob sampleReq 1600000000 "123e4567-e89b-42d3-a456-426614174000".

(** The primary flow takes [n] steps in a row. *)
Definition mainSteps (n : nat) : list Event := replicate n EvMain.

(** The child is spawned, exits with [code], and the worker runs to its
    end; nobody cancels. *)
Definition exitRun (code : Z) : list Event :=
  (mainSteps 3 ++ [EvStdout "out"; EvExit (Exited code)]
     ++ mainSteps (if (code =? 0)%Z then 8 else 11))%list.

(** The job is canceled while the child runs: the watcher sees the
    context, sets [canceled] and kills the child. *)
Definition cancelRun : list Event :=
  (mainSteps 3 ++ [EvCancel; EvWatch false; EvWatch false; EvWatch false]
     ++ mainSteps 12)%list.

(** The same up to the moment before the cancellation override. *)
Definition cancelRunToFailed : list Event :=
  (mainSteps 3 ++ [EvCancel; EvWatch false; EvWatch false; EvWatch false]
     ++ mainSteps 6)%list.

(** The job is canceled while the child runs and the watcher sets
    [canceled]; then the child exits by itself with status 0 before the
    kill reaches it, and the primary flow runs to its end. *)
Definition raceRunToFlag : list Event :=
  (mainSteps 3 ++ [EvCancel; EvWatch false; EvWatch false])%list.

Definition raceRunRest : list Event :=
  ([EvExit (Exited 0); EvWatch false] ++ mainSteps 9)%list.

Definition raceRun : list Event := (raceRunToFlag ++ raceRunRest)%list.

(** The state a schedule leads to ([init j] when the schedule cannot
    be run). *)
Definition runOf (w : World) (evs : list Event) (j : Job) : State :=
  default (init j) (cmdWorker w evs (init j)).

(** A registry that holds the sample job, still running. *)
Definition sampleRegistry : JobBookkeeper := Add sampleJob ∅.

(** A job whose request had no environment overrides. *)
Definition plainJob : Job :=
  createdJob (RunCmdReq.mk "true" false "" None) 1600000000
             "00000000-0000-4000-8000-000000000001".

(** A job whose list of overrides names the key [A] twice. *)
Definition dupEnvJob : Job :=
  createdJob (RunCmdReq.mk "env" false "" (Some ["A=1"; "B=2"; "A=3"]))
             1600000000 "00000000-0000-4000-8000-000000000002".

(** A job without overrides that asks for a working directory. *)
Definition dirJob : Job :=
  createdJob (RunCmdReq.mk "env" false "/tmp" None) 1600000000
             "00000000-0000-4000-8000-000000000003".

(** ** More of the worker: output, calls into [os/exec], request fields *)

(** What the child wrote to its standard output and to its standard
    error during a schedule, in the order it was written. *)
Fixpoint stdoutOf (evs : list Event) : string :=
  match evs with
  | [] => ""
  | EvStdout data :: evs' => data +:+ stdoutOf evs'
  | _ :: evs' => stdoutOf evs'
  end.

Fixpoint stderrOf (evs : list Event) : string :=
  match evs with
  | [] => ""
  | EvStderr data :: evs' => data +:+ stderrOf evs'
  | _ :: evs' => stderrOf evs'
  end.

(** The deferred function has copied the buffer into the job. *)
Definition stdoutWritten (pc : MainPC) : bool :=
  match pc with
  | L117 | Returned | Panicked => true
  | _ => false
  end.

Definition stderrWritten (pc : MainPC) : bool :=
  match pc with
  | Returned | Panicked => true
  | _ => false
  end.

(** Whether [doneC] is closed at a program point: line 162 closes it,
    and a worker whose start failed never does. *)
Definition doneExpected (w : World) (pc : MainPC) : bool :=
  match pc with
  | L137 | L140 | L141 | L145 | L150 | L161 | L162 => false
  | L163 | L167 | L170 | L173 | L174 | L178 | L182 | L184 | L185 => true
  | L115 | L116 | L117 | Returned | Panicked => started w
  end.

(** The part of the outline that the claims did not need. *)
Record Inv2 (w : World) (j0 : Job) (s : State) : Prop := mkInv2 {
  inv2_id : Id (job s) = Id j0;
  inv2_cmd : Cmd (job s) = Cmd j0;
  inv2_dir : Dir (job s) = Dir j0;
  inv2_envs : Env (job s) = Env j0;
  inv2_ctime : CreateTime (job s) = CreateTime j0;
  inv2_done : doneC s = doneExpected w (mpc s);
  inv2_close : occ CloseDone (log s) = if doneC s then 1%nat else 0%nat;
  inv2_kill0 : wpc s ≠ Wend → occ CallKill (log s) = 0%nat;
  inv2_kill1 : (occ CallKill (log s) ≤ 1)%nat;
  inv2_kflag : wpc s = W154 ∨ occ CallKill (log s) ≠ 0%nat → canceled s = true;
  inv2_start : ∀ b, occ (CallStart b) (log s) =
                    if decide (mpc s = L137) then 0%nat
                    else if decide (b = started w) then 1%nat else 0%nat;
  inv2_out : stdoutWritten (mpc s) = true → Stdout (job s) = stdout s;
  inv2_err : stderrWritten (mpc s) = true → Stderr (job s) = stderr s
}.

(** A run in which the job is canceled after [cmd.Wait()] has returned
    and [doneC] is closed: the watcher finds both channels ready, takes
    the [ctx.Done()] case and sets [canceled], but only after the
    primary flow has tested the flag. *)
Definition lateCancelRun : list Event :=
  (mainSteps 3 ++ [EvExit (Exited 0)] ++ mainSteps 2 ++ [EvCancel]
     ++ mainSteps 3 ++ [EvWatch true; EvWatch true; EvWatch true]
     ++ mainSteps 3)%list.

(** A child that writes to both streams and is ended by a signal. *)
Definition signalRun : list Event :=
  (mainSteps 3 ++ [EvStdout "a"; EvStderr "x"; EvStdout "b";
                   EvExit (Signaled "signal: segmentation fault")]
     ++ mainSteps 10)%list.



(** ** The service wrapper of [server.go] *)

(** A channel variable: nil, or a channel that is open or closed. *)
Inductive Chan := ChNil | ChOpen | ChClosed.

Module server.
Record t := mk { data : Chan; exit : Chan; wg : Z }.
End server.

(** Program points of the goroutine that [program.Start] launches on
    [server.start], named by source line.  [G0]: not launched. *)
Inductive StartPC := G0 | S21 | S23 | S25 | S27 | S28 | Sret.

(** Program points of the flow that drives the service (in [main],
    [svc.Run] calls [program.Start] and, on the signal to stop,
    [program.Stop]): [P100] is the [go] statement of [Start], [Pidle]
    the wait for the signal, [T33] to [T37] are [server.stop], [P116]
    is the rest of [Stop] after [stop] has returned nil. *)
Inductive DriverPC := P100 | Pidle | T33 | T35 | T37 | P116 | Pret | Ppanic.

Record Service := mkService {
  svr : server.t;
  gpc : StartPC;
  dpc : DriverPC
}.

(** [prg := program{svr: &server{}}]: both channels nil, counter zero. *)
Definition initService : Service :=
  mkService (server.mk ChNil ChNil 0) G0 P100.

(** One statement of [server.start].  The calls [incubator.Incubate]
    and [gApp.Run] do not receive the server; a step at [S27] or [S28]
    is the return of the call. *)
Definition stepStart (s : Service) : option Service :=
  let v := svr s in
  match gpc s with
  | G0 => None
  | S21 => (* s.data = make(chan int) *)
      Some (mkService (server.mk ChOpen (server.exit v) (server.wg v)) S23 (dpc s))
  | S23 => (* s.exit = make(chan struct{}) *)
      Some (mkService (server.mk (server.data v) ChOpen (server.wg v)) S25 (dpc s))
  | S25 => (* s.wg.Add(2) *)
      Some (mkService (server.mk (server.data v) (server.exit v) (server.wg v + 2))
              S27 (dpc s))
  | S27 => Some (mkService v S28 (dpc s))
  | S28 => Some (mkService v Sret (dpc s))
  | Sret => None
  end.

(** One statement of the driving flow.  Closing a nil or a closed
    channel panics; [s.wg.Wait()] blocks until the counter is zero. *)
Definition stepDriver (s : Service) : option Service :=
  let v := svr s in
  match dpc s with
  | P100 => (* go p.svr.start() *)
      Some (mkService v S21 Pidle)
  | Pidle => Some (mkService v (gpc s) T33)
  | T33 => (* close(s.exit) *)
      match server.exit v with
      | ChOpen =>
          Some (mkService (server.mk (server.data v) ChClosed (server.wg v))
                  (gpc s) T35)
      | ChNil | ChClosed => Some (mkService v (gpc s) Ppanic)
      end
  | T35 => (* s.wg.Wait() *)
      if (server.wg v =? 0)%Z then Some (mkService v (gpc s) T37) else None
  | T37 => (* return nil *)
      Some (mkService v (gpc s) P116)
  | P116 => Some (mkService v (gpc s) Pret)
  | Pret | Ppanic => None
  end.

Inductive ServiceEvent := EvDriver | EvGoroutine.

Definition stepService (s : Service) (ev : ServiceEvent) : option Service :=
  match ev with
  | EvDriver => stepDriver s
  | EvGoroutine => stepStart s
  end.

Fixpoint runService (evs : list ServiceEvent) (s : Service) : option Service :=
  match evs with
  | [] => Some s
  | ev :: evs' =>
      match stepService s ev with
      | Some s' => runService evs' s'
      | None => None
      end
  end.

(** [s.wg.Add(2)] has been executed. *)
Definition added (pc : StartPC) : bool :=
  match pc with
  | S27 | S28 | Sret => true
  | _ => false
  end.

(** [server.stop] has got past [s.wg.Wait()]. *)
Definition pastWait (pc : DriverPC) : bool :=
  match pc with
  | T37 | P116 | Pret => true
  | _ => false
  end.

(** What relates the server to the program points. *)
Definition ServiceInv (s : Service) : Prop :=
  server.wg (svr s) = (if added (gpc s) then 2 else 0) ∧
  (gpc s = G0 ↔ dpc s = P100) ∧
  match server.exit (svr s) with
  | ChNil => gpc s = G0 ∨ gpc s = S21 ∨ gpc s = S23
  | ChOpen => added (gpc s) = true ∨ gpc s = S25
  | ChClosed => (added (gpc s) = true ∨ gpc s = S25) ∧
                dpc s ≠ P100 ∧ dpc s ≠ Pidle ∧ dpc s ≠ T33
  end ∧
  (dpc s = T35 ∨ pastWait (dpc s) = true → server.exit (svr s) = ChClosed).

(** ** Proof support *)

Ltac unfold_state :=
  unfold assignError, write, record,
    with_job, with_err, with_stdout, with_stderr, with_canceled, with_doneC,
    with_ctxDone, with_proc, with_childEnv, goto, wgoto, with_cancelSeen,
    with_panicking in *.

Ltac unfold_inv :=
  unfold ctl, final, failed, running, waited, unseen, started, startError,
    expStatus, expError, expExitCode, expPid in *.

(** Resolve the case distinctions of a step of the primary flow. *)
Ltac run_main Hstep :=
  unfold_state; simpl in Hstep;
  repeat match type of Hstep with
         | context [match ?x with _ => _ end] => destruct x; try done
         end.


(** ** The outline is an invariant *)

Lemma occ_snoc o l x :
  occ o (l ++ [x]) = (occ o l + if decide (x = o) then 1 else 0)%nat.
Proof.
  unfold occ. rewrite filter_app, length_app. f_equal.
  rewrite filter_cons, filter_nil. destruct (decide (x = o)); reflexivity.
Qed.

Lemma init_Inv w j0 : Inv w j0 (init j0).
Proof.
  constructor; simpl; try done.
  all: try (unfold ctl, unseen; simpl; done).
  intros [?|?]; done.
Qed.

Lemma stepMain_inv w j0 s s' :
  Inv w j0 s → stepMain w s = Some s' → Inv w j0 s'.
Proof.
  intros [Hst Her Hex Hpid Hft Hctl Hflag Hwatch Hseen Henv Hfin Hnil Hwait] Hstep.
  destruct s as [j e so se c d cx p ce pc wp cs pn lg]; simpl in *.
  unfold stepMain in Hstep; simpl in Hstep.
  unfold expStatus in Hst; unfold expError in Her; unfold expExitCode in Hex;
    unfold expPid in Hpid;
    unfold ctl, final, failed, running, waited, unseen, started, startError in Hctl.
  simpl in Hst, Her, Hex, Hpid, Hctl.
  destruct (startResult w) as [msg|pid] eqn:Hsr.
  all: destruct pc; destruct_and?; try done.
  all: run_main Hstep.
  all: simplify_eq/=.
  all: constructor; simpl; unfold_inv; simpl; rewrite ?Hsr, ?occ_snoc; simpl.
  all: try done; try lia.
  all: try (intros ? [= <-]; done).
  all: try (intros [?|?]; done).
  all: try (destruct e; done).
Qed.

(** The watcher and the environment leave the outline of the primary
    flow alone: what they change is not constrained at the program
    points where they can move. *)
Lemma ctl_watch w j0 s s' :
  ctl w j0 s → wpc s ≠ W0 → wpc s' ≠ W0 →
  mpc s' = mpc s → job s' = job s → err s' = err s → proc s' = proc s →
  childEnv s' = childEnv s → cancelSeen s' = cancelSeen s →
  panicking s' = panicking s →
  ctl w j0 s'.
Proof.
  destruct s as [j e so se c d cx p ce pc wp cs pn lg],
    s' as [j' e' so' se' c' d' cx' p' ce' pc' wp' cs' pn' lg']; simpl.
  intros Hctl Hw Hw' -> -> -> -> -> -> ->.
  revert Hctl. unfold_inv; simpl.
  destruct (startResult w); destruct pc; simpl; intuition congruence.
Qed.

Lemma ctl_env w j0 s s' :
  ctl w j0 s →
  mpc s' = mpc s → job s' = job s → err s' = err s →
  (proc s' = proc s ∨ (proc s = Alive ∧ ∃ ps, proc s' = Terminated ps)) →
  wpc s' = wpc s → canceled s' = canceled s →
  childEnv s' = childEnv s → cancelSeen s' = cancelSeen s →
  panicking s' = panicking s →
  ctl w j0 s'.
Proof.
  destruct s as [j e so se c d cx p ce pc wp cs pn lg],
    s' as [j' e' so' se' c' d' cx' p' ce' pc' wp' cs' pn' lg']; simpl.
  intros Hctl -> -> -> Hp -> -> -> -> ->.
  revert Hctl. unfold_inv; simpl.
  destruct Hp as [-> | [-> [ps ->]]]; [done|].
  destruct (startResult w); destruct pc; simpl; intuition congruence.
Qed.

Lemma stepWatch_inv w j0 b s s' :
  Inv w j0 s → stepWatch w b s = Some s' → Inv w j0 s'.
Proof.
  intros [Hst Her Hex Hpid Hft Hctl Hflag Hwatch Hseen Henv Hfin Hnil Hwait] Hstep.
  unfold stepWatch in Hstep.
  destruct (wpc s) eqn:Hwp; try done.
  - (* the select *)
    assert (∃ v, s' = wgoto v s ∧ v ≠ W0 ∧ v ≠ W154 ∧
                 (v = W153 → ctxDone s = true)) as (v & -> & Hv0 & Hv4 & Hv).
    { destruct (ctxDone s), (doneC s), b; simplify_eq/=;
        eexists; split_and!; done. }
    constructor; simpl; try done.
    + eapply ctl_watch; eauto; simpl; congruence.
    + intros Hc. destruct (Hflag Hc) as [_ [?|?]]; congruence.
    + intros [->| ->]; auto.
  - (* canceled = true *)
    simplify_eq. constructor; simpl; try done.
    + eapply ctl_watch; eauto; simpl; congruence.
    + intros _. split; [apply Hwatch|]; auto.
    + intros _. apply Hwatch; auto.
  - (* cmd.Process.Kill() *)
    simplify_eq. constructor; simpl; rewrite ?occ_snoc; simpl; try done; try lia.
    + eapply ctl_watch with (s := with_proc _ (record CallKill s)); simpl; try done.
      * eapply ctl_env; eauto; simpl.
        destruct (proc s); eauto.
      * congruence.
    + intros Hc. split; [apply Hwatch|]; auto.
    + intros [?|?]; done.
    + rewrite Hwait. destruct (proc s); simpl; lia.
Qed.

Lemma step_inv w j0 s ev s' : Inv w j0 s → step w s ev = Some s' → Inv w j0 s'.
Proof.
  intros Hinv Hstep. destruct ev; simpl in Hstep.
  - eapply stepMain_inv; eauto.
  - eapply stepWatch_inv; eauto.
  - simplify_eq. destruct Hinv. constructor; simpl; try done.
    intros Hc. split; [done|]. apply inv_flag0; done.
  - destruct (proc s) eqn:Hp; simplify_eq. destruct Hinv.
    constructor; simpl; try done.
    + eapply ctl_env; eauto; simpl; eauto.
    + rewrite inv_wait0, Hp. done.
  - destruct (proc s) eqn:Hp; simplify_eq. destruct Hinv.
    constructor; simpl; done.
  - destruct (proc s) eqn:Hp; simplify_eq. destruct Hinv.
    constructor; simpl; done.
Qed.

Lemma cmdWorker_inv w j0 evs :
  ∀ s s', Inv w j0 s → cmdWorker w evs s = Some s' → Inv w j0 s'.
Proof.
  induction evs as [|ev evs IH]; simpl; intros s s' Hinv Hex.
  - by simplify_eq.
  - destruct (step w s ev) as [s1|] eqn:Hs; [|done].
    eapply IH; [|done]. eapply step_inv; eauto.
Qed.

(** ** Schedules *)

(** Only an invocation of [job.cancelFunc] closes [ctx.Done()]. *)
Lemma cmdWorker_no_cancel w evs :
  ∀ s s', cmdWorker w evs s = Some s' → EvCancel ∉ evs → ctxDone s' = ctxDone s.
Proof.
  induction evs as [|ev evs IH]; simpl; intros s s' Hex Hno.
  - by simplify_eq.
  - destruct (step w s ev) as [s1|] eqn:Hs; [|done].
    apply not_elem_of_cons in Hno as [Hne Hno].
    rewrite (IH _ _ Hex Hno).
    destruct ev; simpl in Hs; try done.
    + unfold stepMain in Hs. destruct s as [j e so se c d cx p ce pc wp cs pn lg].
      simpl in *. destruct pc; run_main Hs; by simplify_eq/=.
    + unfold stepWatch in Hs. destruct s as [j e so se c d cx p ce pc wp cs pn lg].
      simpl in *. destruct wp; run_main Hs; by simplify_eq/=.
    + destruct (proc s); by simplify_eq.
    + destruct (proc s); by simplify_eq.
    + destruct (proc s); by simplify_eq.
Qed.

(** The state in which a child has ended is kept. *)
Lemma step_endedWith w j0 ps s ev s' :
  Inv w j0 s → step w s ev = Some s' → endedWith ps s → endedWith ps s'.
Proof.
  unfold endedWith. intros [_ _ _ _ _ Hctl _ _ _ _ _ _ _] Hs Hp.
  destruct s as [j e so se c d cx p ce pc wp cs pn lg]; simpl in *.
  destruct ev; simpl in Hs.
  - unfold stepMain in Hs; simpl in Hs.
    unfold ctl in Hctl; simpl in Hctl.
    destruct Hp as [-> | ->]; destruct pc; run_main Hs; simplify_eq/=; eauto.
    all: by destruct_and?.
  - unfold stepWatch in Hs; simpl in Hs.
    destruct Hp as [-> | ->]; destruct wp; run_main Hs; simplify_eq/=; eauto.
  - simplify_eq/=. done.
  - destruct Hp as [-> | ->]; done.
  - destruct Hp as [-> | ->]; done.
  - destruct Hp as [-> | ->]; done.
Qed.

Lemma cmdWorker_endedWith w j0 ps evs :
  ∀ s s', Inv w j0 s → cmdWorker w evs s = Some s' → endedWith ps s → endedWith ps s'.
Proof.
  induction evs as [|ev evs IH]; simpl; intros s s' Hinv Hex Hp.
  - by simplify_eq.
  - destruct (step w s ev) as [s1|] eqn:Hs; [|done].
    eapply IH; [|done|].
    + eapply step_inv; eauto.
    + eapply step_endedWith; eauto.
Qed.

Lemma cmdWorker_exit w j0 ps evs :
  ∀ s s', Inv w j0 s → cmdWorker w evs s = Some s' → EvExit ps ∈ evs → endedWith ps s'.
Proof.
  induction evs as [|ev evs IH]; simpl; intros s s' Hinv Hex Hin.
  - by apply elem_of_nil in Hin.
  - destruct (step w s ev) as [s1|] eqn:Hs; [|done].
    pose proof (step_inv _ _ _ _ _ Hinv Hs) as Hinv1.
    apply elem_of_cons in Hin as [<- | Hin]; [|by eapply IH].
    eapply cmdWorker_endedWith; [done|done|].
    simpl in Hs. destruct (proc s); simplify_eq. by left.
Qed.

(** ** The primary flow runs to its end *)

Lemma stepMain_progress w j0 s :
  Inv w j0 s → canFinish w s → ended s = false →
  ∃ s', stepMain w s = Some s' ∧
        (remaining (mpc s') < remaining (mpc s))%nat ∧ canFinish w s'.
Proof.
  intros [_ _ _ _ _ Hctl _ _ _ _ _ _ _] Hcan Hend.
  destruct s as [j e so se c d cx p ce pc wp cs pn lg].
  unfold canFinish, ended, stepMain in *; simpl in *.
  unfold ctl, final, failed, running, waited, unseen, started, startError in *.
  simpl in *.
  destruct (startResult w) as [msg|pid] eqn:Hsr.
  all: destruct pc; try done; destruct_and?; simplify_eq/=.
  all: try (destruct Hcan; done).
  all: unfold_state; simpl.
  all: repeat match goal with
         | |- context [match ?x with _ => _ end] =>
             destruct x; try done; try (destruct Hcan; done)
         end.
  all: eexists; split; [reflexivity|]; simpl; split; [lia|]; auto.
Qed.

Lemma main_progress w j0 n :
  ∀ s, Inv w j0 s → canFinish w s → (remaining (mpc s) ≤ n)%nat →
       ∃ k s', cmdWorker w (mainSteps k) s = Some s' ∧ ended s' = true.
Proof.
  induction n as [|n IH]; intros s Hinv Hcan Hn.
  - exists 0%nat, s. split; [done|].
    unfold ended. destruct (mpc s); simpl in Hn; done || lia.
  - destruct (ended s) eqn:Hend.
    + exists 0%nat, s. done.
    + destruct (stepMain_progress _ _ _ Hinv Hcan Hend) as (s1 & Hs & Hlt & Hcan1).
      destruct (IH s1) as (k & s' & Hex & He); [|done|lia|].
      { eapply stepMain_inv; eauto. }
      exists (S k), s'. split; [|done]. simpl. by rewrite Hs.
Qed.

(** From a reachable state in which the child has ended, or the start
    has failed, the worker ends after finitely many steps of the
    primary flow. *)
Lemma worker_ends w j0 s :
  Inv w j0 s → canFinish w s →
  ∃ k s', cmdWorker w (mainSteps k) s = Some s' ∧ ended s' = true.
Proof. intros. eapply main_progress; eauto. Qed.

(** Once the worker has ended, nothing writes to the job. *)
Lemma step_ended w s ev s' :
  step w s ev = Some s' → ended s = true →
  job s' = job s ∧ mpc s' = mpc s.
Proof.
  intros Hs Hend.
  destruct s as [j e so se c d cx p ce pc wp cs pn lg].
  unfold ended in Hend; simpl in *.
  destruct ev; simpl in Hs.
  - unfold stepMain in Hs; simpl in Hs. by destruct pc.
  - unfold stepWatch in Hs; simpl in Hs.
    destruct wp; run_main Hs; by simplify_eq/=.
  - by simplify_eq/=.
  - destruct p; by simplify_eq/=.
  - destruct p; by simplify_eq/=.
  - destruct p; by simplify_eq/=.
Qed.

Lemma cmdWorker_ended w evs :
  ∀ s s', cmdWorker w evs s = Some s' → ended s = true →
          job s' = job s ∧ mpc s' = mpc s.
Proof.
  induction evs as [|ev evs IH]; simpl; intros s s' Hex Hend.
  - by simplify_eq.
  - destruct (step w s ev) as [s1|] eqn:Hs; [|done].
    destruct (step_ended _ _ _ _ Hs Hend) as [Hj Hpc].
    destruct (IH s1 s' Hex) as [Hj' Hpc'].
    { unfold ended in *. by rewrite Hpc. }
    split; congruence.
Qed.

(** ** The status moves forward *)

Lemma status_le_refl a : status_le a a.
Proof. by left. Qed.

Lemma status_le_trans a b c : status_le a b → status_le b c → status_le a c.
Proof.
  unfold status_le. intros [-> | Hab] [-> | Hbc]; auto. right. lia.
Qed.

Lemma step_status w j0 s ev s' :
  Status j0 = JSRunning → Inv w j0 s → step w s ev = Some s' →
  status_le (Status (job s)) (Status (job s')).
Proof.
  intros Hrun [Hst _ _ _ _ Hctl _ _ _ _ _ _ _] Hs.
  destruct s as [j e so se c d cx p ce pc wp cs pn lg]; simpl in *.
  destruct ev; simpl in Hs.
  - unfold stepMain in Hs; simpl in Hs.
    unfold expStatus in Hst; simpl in Hst.
    unfold ctl, waited, unseen in Hctl; simpl in Hctl.
    destruct pc; try done; run_main Hs; simplify_eq/=;
      try apply status_le_refl.
    all: rewrite Hst, ?Hrun; right; simpl; try lia.
    all: destruct_and?; simplify_eq/=; destruct e; simpl in *; done || lia.
  - unfold stepWatch in Hs; simpl in Hs.
    destruct wp; run_main Hs; simplify_eq/=; apply status_le_refl.
  - simplify_eq/=. apply status_le_refl.
  - destruct p; simplify_eq/=. apply status_le_refl.
  - destruct p; simplify_eq/=. apply status_le_refl.
  - destruct p; simplify_eq/=. apply status_le_refl.
Qed.

Lemma cmdWorker_status w j0 evs :
  ∀ s s', Status j0 = JSRunning → Inv w j0 s → cmdWorker w evs s = Some s' →
          status_le (Status (job s)) (Status (job s')).
Proof.
  induction evs as [|ev evs IH]; simpl; intros s s' Hrun Hinv Hex.
  - simplify_eq. apply status_le_refl.
  - destruct (step w s ev) as [s1|] eqn:Hs; [|done].
    eapply status_le_trans.
    + eapply step_status; eauto.
    + eapply IH; eauto. eapply step_inv; eauto.
Qed.

(** ** What holds when the worker has ended *)

Lemma ended_facts w j0 s :
  Inv w j0 s → ended s = true →
  final w s ∧
  Status (job s) =
    (if cancelSeen s && negb (panicking s) then JSCanceled else classify (err s)) ∧
  Error (job s) = match err s with Some e => err_Error e | None => Error j0 end ∧
  ExitCode (job s) =
    match err s with
    | Some (ExitError (Exited code)) => code
    | _ => ExitCode j0
    end ∧
  (mpc s = Panicked ↔ panicking s = true) ∧
  (mpc s = Returned ↔ panicking s = false).
Proof.
  intros [Hst Her Hex _ _ Hctl _ _ _ _ _ _ _] Hend.
  unfold ended in Hend. unfold expStatus in Hst. unfold expError in Her.
  unfold expExitCode in Hex. unfold ctl in Hctl.
  destruct (mpc s); try done; destruct Hctl as [Hf Hp];
    split_and!; try done; rewrite Hp; split; done.
Qed.

(** A flow that saw [canceled] set read it after the watcher had seen
    the context closed. *)
Lemma seen_cancel w j0 s :
  Inv w j0 s → cancelSeen s = true → ctxDone s = true.
Proof. intros Hinv Hs. apply Hinv, Hinv, Hs. Qed.

(** The cancellation override does its work when [cmd.Wait()] returned
    an error. *)
Lemma cancel_override w j evs s :
  cmdWorker w evs (init j) = Some s → ended s = true →
  cancelSeen s = true → err s ≠ None →
  Status (job s) = JSCanceled ∧ mpc s = Returned.
Proof.
  intros Hex Hend Hseen Herr.
  assert (Inv w j s) as Hinv by (eapply cmdWorker_inv; [apply init_Inv|done]).
  destruct (ended_facts _ _ _ Hinv Hend) as (Hf & Hst & _ & _ & _ & Hret).
  unfold final, failed, unseen in Hf. rewrite Hseen in Hf.
  destruct (started w); [|destruct_and?; congruence].
  destruct Hf as [_ Hp]. destruct (err s); [|done]. simpl in Hp.
  rewrite Hst, Hseen, Hp. split; [done|]. by apply Hret.
Qed.

(** After a failed start nothing but the primary flow has moved. *)
Lemma start_failed_state w j0 s :
  Inv w j0 s → started w = false →
  proc s = NotStarted ∧ wpc s = W0 ∧ canceled s = false ∧ cancelSeen s = false ∧
  panicking s = false ∧ (mpc s ≠ L137 → err s = startError w).
Proof.
  intros [_ _ _ _ _ Hctl _ _ _ _ _ _ _] Hsf.
  unfold ctl, final, failed, running, waited, unseen in Hctl.
  rewrite Hsf in Hctl.
  destruct (mpc s); destruct_and?; try done.
Qed.

(** A flag the watcher has set before the primary flow tests it is
    seen by the test. *)
Lemma step_flag_seen w j0 s ev s' :
  Inv w j0 s → step w s ev = Some s' → canceled s = true →
  untested (mpc s) = true ∨ cancelSeen s = true →
  canceled s' = true ∧ (untested (mpc s') = true ∨ cancelSeen s' = true).
Proof.
  intros [_ _ _ _ _ Hctl _ _ _ _ _ _ _] Hs Hc Hpc.
  destruct s as [j e so se c d cx p ce pc wp cs pn lg]; simpl in *.
  subst c. destruct ev; simpl in Hs.
  - unfold stepMain in Hs; simpl in Hs.
    unfold ctl in Hctl; simpl in Hctl.
    destruct pc; run_main Hs; simplify_eq/=;
      (split; [reflexivity|]); simpl in *; try tauto.
    by destruct_and?.
  - unfold stepWatch in Hs; simpl in Hs.
    destruct wp; run_main Hs; simplify_eq/=; auto.
  - simplify_eq/=. auto.
  - destruct p; simplify_eq/=. auto.
  - destruct p; simplify_eq/=. auto.
  - destruct p; simplify_eq/=. auto.
Qed.

Lemma cmdWorker_flag_seen w j0 evs :
  ∀ s s', Inv w j0 s → cmdWorker w evs s = Some s' → canceled s = true →
          untested (mpc s) = true ∨ cancelSeen s = true →
          untested (mpc s') = true ∨ cancelSeen s' = true.
Proof.
  induction evs as [|ev evs IH]; simpl; intros s s' Hinv Hex Hc Hpc.
  - by simplify_eq.
  - destruct (step w s ev) as [s1|] eqn:Hs; [|done].
    destruct (step_flag_seen _ _ _ _ _ Hinv Hs Hc Hpc) as [Hc1 Hpc1].
    eapply IH; [|done..]. eapply step_inv; eauto.
Qed.

(** What the cancellation override does once the primary flow has seen
    [canceled] set. *)
Lemma override_outcome w j0 s :
  Inv w j0 s → ended s = true → cancelSeen s = true →
  ∃ ps, proc s = Reaped ps ∧ err s = waitError ps ∧
        (err s = None →
         mpc s = Panicked ∧ occ NilDeref (log s) = 1%nat) ∧
        (err s ≠ None →
         mpc s = Returned ∧ occ NilDeref (log s) = 0%nat).
Proof.
  intros Hinv Hend Hseen.
  destruct (ended_facts _ _ _ Hinv Hend) as (Hf & _ & _ & _ & Hpan & Hret).
  pose proof (inv_nil _ _ _ Hinv) as Hnil.
  unfold final, failed, waited, unseen in Hf. rewrite Hseen in Hf.
  destruct (started w); [|destruct_and?; congruence].
  destruct Hf as [(_ & _ & Hp) Hpn].
  destruct (proc s) as [| |ps|ps]; try done.
  exists ps. split; [done|]. split; [done|].
  rewrite Hpn in Hnil, Hpan, Hret.
  destruct (err s); simpl in *; split; intros ?; try done.
  - split; [by apply Hret|done].
  - split; [by apply Hpan|done].
Qed.

(** ** The worker: the claims *)

(** C1 (the code departs from it).  A job that is canceled while its
    child is alive must end in [JSCanceled], whatever the exit
    classification was.  In this run the job is canceled while the child
    runs and the watcher sets [canceled] ([s1]); the child then exits
    with status 0 before the kill reaches it, [cmd.Wait()] returns nil,
    the override at line 184 calls [err.Error()] on the nil error, and
    the status stays [JSFinished] ([s2]). *)
Theorem cancel_race_keeps_Finished :
  let w := linux (StartOk 4242) in
  let s1 := runOf w raceRunToFlag sampleJob in
  let s2 := runOf w raceRun sampleJob in
  cmdWorker w raceRunToFlag (init sampleJob) = Some s1 ∧
  proc s1 = Alive ∧ ctxDone s1 = true ∧ canceled s1 = true ∧
  Status (job s1) = JSRunning ∧
  cmdWorker w raceRunRest s1 = Some s2 ∧
  ended s2 = true ∧ cancelSeen s2 = true ∧ err s2 = None ∧
  Status (job s2) = JSFinished ∧ mpc s2 = Panicked.
Proof. vm_compute. split_and!; reflexivity. Qed.


(** The run of [late_flag_never_read], state by state. *)
Lemma late_flag_run :
  let s := runOf (linux (StartOk 4242)) lateCancelRun sampleJob in
  cmdWorker (linux (StartOk 4242)) lateCancelRun (init sampleJob) = Some s ∧
  canceled s = true ∧ wpc s = Wend ∧ cancelSeen s = false ∧ err s = None ∧
  mpc s = Returned ∧ occ NilDeref (log s) = 0%nat ∧
  Status (job s) = JSFinished.
Proof. vm_compute. split_and!; reflexivity. Qed.



(** C2 (as written it fails).  A status that holds a terminal value is
    written again: the exit classification writes [JSFailed], and the
    cancellation override then writes [JSCanceled]. *)
Lemma status_written_twice : ¬ status_written_once.
Proof.
  intros H.
  specialize (H (linux (StartOk 4242)) sampleJob cancelRunToFailed (mainSteps 6)
                (runOf (linux (StartOk 4242)) cancelRunToFailed sampleJob)
                (runOf (linux (StartOk 4242)) cancelRun sampleJob)).
  vm_compute in H.
  specialize (H eq_refl eq_refl eq_refl).
  assert (JSFailed ≠ JSRunning) as Hne by discriminate.
  specialize (H Hne). discriminate.
Qed.

(** C2 (amended).  The status only moves forward: from [JSRunning] to
    the exit classification [JSFinished] or [JSFailed], and from there
    only to [JSCanceled]; once the worker has ended it does not change. *)
Theorem status_forward w j evs1 evs2 s1 s2 :
  Status j = JSRunning →
  cmdWorker w evs1 (init j) = Some s1 →
  cmdWorker w evs2 s1 = Some s2 →
  status_le (Status (job s1)) (Status (job s2)) ∧
  (ended s1 = true → Status (job s2) = Status (job s1)).
Proof.
  intros Hrun Hex1 Hex2.
  assert (Inv w j s1) as Hinv by (eapply cmdWorker_inv; [apply init_Inv|done]).
  split.
  - eapply cmdWorker_status; eauto.
  - intros Hend. by destruct (cmdWorker_ended _ _ _ _ Hex2 Hend) as [-> _].
Qed.

Lemma status_forward_witness :
  let w := linux (StartOk 4242) in
  status_le (Status (job (runOf w cancelRunToFailed sampleJob)))
            (Status (job (runOf w cancelRun sampleJob))) ∧
  (ended (runOf w cancelRunToFailed sampleJob) = true →
   Status (job (runOf w cancelRun sampleJob)) =
   Status (job (runOf w cancelRunToFailed sampleJob))).
Proof.
  intros w.
  apply (status_forward w sampleJob cancelRunToFailed (mainSteps 6));
    vm_compute; reflexivity.
Defined.

(** C3 (as written it fails).  After a failed start no process ever
    ran, and the deferred function still sets the finish time. *)
Lemma finish_time_without_process : ¬ finish_only_after_process.
Proof.
  intros H.
  destruct (H (linux (StartErr "fork/exec /bin/sh: no such file or directory"))
              sampleJob (mainSteps 6)
              (runOf (linux (StartErr "fork/exec /bin/sh: no such file or directory"))
                     (mainSteps 6) sampleJob)) as [ps Hps].
  - vm_compute. reflexivity.
  - vm_compute. discriminate.
  - vm_compute in Hps. discriminate.
Qed.

(** C3 (amended).  The worker writes the finish time at most once, and
    exactly once by the time it has ended, with the time of the clock.
    When the child was spawned the write comes after [cmd.Wait()] has
    returned; when the start failed it is made although no process
    ran. *)
Theorem finish_time_once w j evs s :
  cmdWorker w evs (init j) = Some s →
  (occ (Wrote FFinishTime) (log s) ≤ 1)%nat ∧
  (ended s = true →
   occ (Wrote FFinishTime) (log s) = 1%nat ∧ FinishTime (job s) = now w) ∧
  (occ (Wrote FFinishTime) (log s) = 1%nat →
   if started w then ∃ ps, proc s = Reaped ps ∧ occ CallWait (log s) = 1%nat
   else proc s = NotStarted) ∧
  (occ (Wrote FFinishTime) (log s) = 0%nat → FinishTime (job s) = FinishTime j).
Proof.
  intros Hex.
  assert (Inv w j s) as Hinv by (eapply cmdWorker_inv; [apply init_Inv|done]).
  destruct Hinv as [_ _ _ _ Hft Hctl _ _ _ _ Hfin _ Hwait].
  rewrite Hfin. unfold ended. unfold ctl, final, failed, waited in Hctl.
  destruct (mpc s); simpl in *; split_and!; try done; try lia.
  all: intros _; destruct (started w); destruct_and?; try done.
  all: destruct (proc s); try done; eauto.
Qed.

Lemma finish_time_once_witness :
  let w := linux (StartOk 4242) in
  let s := runOf w (exitRun 7) sampleJob in
  (occ (Wrote FFinishTime) (log s) ≤ 1)%nat ∧
  (ended s = true →
   occ (Wrote FFinishTime) (log s) = 1%nat ∧ FinishTime (job s) = now w) ∧
  (occ (Wrote FFinishTime) (log s) = 1%nat →
   if started w then ∃ ps, proc s = Reaped ps ∧ occ CallWait (log s) = 1%nat
   else proc s = NotStarted) ∧
  (occ (Wrote FFinishTime) (log s) = 0%nat →
   FinishTime (job s) = FinishTime sampleJob).
Proof.
  intros w s.
  apply (finish_time_once w sampleJob (exitRun 7) s); vm_compute; reflexivity.
Defined.

(** C4.  A child that exits with a non-zero code, in a run in which
    [job.cancelFunc] is never invoked: the worker runs to its end, and
    the job ends [JSFailed] with that exit code and the text of the
    wait error, which is not empty. *)
Theorem nonzero_exit_Failed w j evs s code :
  cmdWorker w evs (init j) = Some s →
  EvCancel ∉ evs → EvExit (Exited code) ∈ evs → code ≠ 0 →
  (∃ k s', cmdWorker w (mainSteps k) s = Some s' ∧ ended s' = true) ∧
  (ended s = true →
   mpc s = Returned ∧ Status (job s) = JSFailed ∧ ExitCode (job s) = code ∧
   Error (job s) = "exit status " +:+ itoa code ∧ Error (job s) ≠ "").
Proof.
  intros Hex Hno Hexit Hcode.
  assert (Inv w j s) as Hinv by (eapply cmdWorker_inv; [apply init_Inv|done]).
  pose proof (cmdWorker_exit _ _ _ _ _ _ (init_Inv w j) Hex Hexit) as Hp.
  pose proof (cmdWorker_no_cancel _ _ _ _ Hex Hno) as Hcx. simpl in Hcx.
  split.
  { eapply worker_ends; [done|]. right. by destruct Hp as [-> | ->]. }
  intros Hend.
  destruct (ended_facts _ _ _ Hinv Hend) as (Hf & Hst & Her & Hec & _ & Hret).
  assert (cancelSeen s = false) as Hcs.
  { destruct (cancelSeen s) eqn:Hcs; [|done].
    rewrite (seen_cancel _ _ _ Hinv Hcs) in Hcx. done. }
  unfold final, failed, waited in Hf. rewrite Hcs in Hf.
  destruct (started w).
  - destruct Hf as [(_ & _ & Hw) Hpn].
    destruct Hp as [Hp | Hp]; rewrite Hp in Hw; [done|].
    assert (err s = Some (ExitError (Exited code))) as He.
    { rewrite Hw. by destruct code. }
    rewrite Hst, Her, Hec, Hcs, He. simpl.
    split_and!; try done. by apply Hret.
  - destruct Hf as (_ & _ & Hns & _). by destruct Hp as [Hp | Hp]; rewrite Hp in Hns.
Qed.

Lemma nonzero_exit_Failed_witness :
  let w := linux (StartOk 4242) in
  let s := runOf w (exitRun 7) sampleJob in
  (∃ k s', cmdWorker w (mainSteps k) s = Some s' ∧ ended s' = true) ∧
  (ended s = true →
   mpc s = Returned ∧ Status (job s) = JSFailed ∧ ExitCode (job s) = 7 ∧
   Error (job s) = "exit status " +:+ itoa 7 ∧ Error (job s) ≠ "").
Proof.
  intros w s.
  apply (nonzero_exit_Failed w sampleJob (exitRun 7) s 7).
  - vm_compute; reflexivity.
  - apply (bool_decide_unpack _). vm_compute. exact I.
  - apply (bool_decide_unpack _). vm_compute. exact I.
  - lia.
Defined.

(** C5.  A child that exits with code 0, in a run in which
    [job.cancelFunc] is never invoked, for a job as [RunCmdHandler]
    creates it: the worker runs to its end, and the job ends
    [JSFinished] with exit code 0 and no error text. *)
Theorem zero_exit_Finished w req t u4 evs s :
  cmdWorker w evs (init (createdJob req t u4)) = Some s →
  EvCancel ∉ evs → EvExit (Exited 0) ∈ evs →
  (∃ k s', cmdWorker w (mainSteps k) s = Some s' ∧ ended s' = true) ∧
  (ended s = true →
   mpc s = Returned ∧ Status (job s) = JSFinished ∧ ExitCode (job s) = 0 ∧
   Error (job s) = "").
Proof.
  intros Hex Hno Hexit.
  set (j := createdJob req t u4) in *.
  assert (Inv w j s) as Hinv by (eapply cmdWorker_inv; [apply init_Inv|done]).
  pose proof (cmdWorker_exit _ _ _ _ _ _ (init_Inv w j) Hex Hexit) as Hp.
  pose proof (cmdWorker_no_cancel _ _ _ _ Hex Hno) as Hcx. simpl in Hcx.
  split.
  { eapply worker_ends; [done|]. right. by destruct Hp as [-> | ->]. }
  intros Hend.
  destruct (ended_facts _ _ _ Hinv Hend) as (Hf & Hst & Her & Hec & _ & Hret).
  assert (cancelSeen s = false) as Hcs.
  { destruct (cancelSeen s) eqn:Hcs; [|done].
    rewrite (seen_cancel _ _ _ Hinv Hcs) in Hcx. done. }
  unfold final, failed, waited in Hf. rewrite Hcs in Hf.
  destruct (started w).
  - destruct Hf as [(_ & _ & Hw) Hpn].
    destruct Hp as [Hp | Hp]; rewrite Hp in Hw; [done|].
    simpl in Hw.
    rewrite Hst, Her, Hec, Hcs, Hw. simpl.
    split_and!; try done. by apply Hret.
  - destruct Hf as (_ & _ & Hns & _). by destruct Hp as [Hp | Hp]; rewrite Hp in Hns.
Qed.

Lemma zero_exit_Finished_witness :
  let w := linux (StartOk 4242) in
  let s := runOf w (exitRun 0) sampleJob in
  (∃ k s', cmdWorker w (mainSteps k) s = Some s' ∧ ended s' = true) ∧
  (ended s = true →
   mpc s = Returned ∧ Status (job s) = JSFinished ∧ ExitCode (job s) = 0 ∧
   Error (job s) = "").
Proof.
  intros w s.
  apply (zero_exit_Finished w sampleReq 1600000000
           "123e4567-e89b-42d3-a456-426614174000" (exitRun 0) s).
  - vm_compute; reflexivity.
  - apply (bool_decide_unpack _). vm_compute. exact I.
  - apply (bool_decide_unpack _). vm_compute. exact I.
Defined.

(** C6.  When [cmd.Start()] fails, the worker ends after the six
    statements that record the error, set [JSFailed] and run the
    deferred function.  It never calls [cmd.Wait()], there is no child
    and no watcher, and the process id keeps its initial value. *)
Theorem start_failure w j msg evs s :
  startResult w = StartErr msg →
  cmdWorker w evs (init j) = Some s →
  (∃ s', cmdWorker w (mainSteps 6) (init j) = Some s' ∧ mpc s' = Returned ∧
         log s' = [CallStart false; Wrote FError; Wrote (FStatus JSFailed);
                   Wrote FFinishTime; Wrote FStdout; Wrote FStderr]) ∧
  proc s = NotStarted ∧ wpc s = W0 ∧ occ CallWait (log s) = 0%nat ∧
  Pid (job s) = Pid j ∧
  (ended s = true →
   mpc s = Returned ∧ Error (job s) = msg ∧ Status (job s) = JSFailed).
Proof.
  intros Hsr Hex.
  assert (Inv w j s) as Hinv by (eapply cmdWorker_inv; [apply init_Inv|done]).
  assert (started w = false) as Hsf by (unfold started; by rewrite Hsr).
  destruct (start_failed_state _ _ _ Hinv Hsf) as (Hp & Hw & Hc & Hcs & Hpn & He).
  split_and!; try done.
  - clear -Hsr. destruct w as [goos env0 abs lower fold getenv sr clock].
    simpl in Hsr. subst sr.
    exists (runOf (mkWorld goos env0 abs lower fold getenv (StartErr msg) clock)
                  (mainSteps 6) j).
    split; [|split]; vm_compute; reflexivity.
  - rewrite (inv_wait _ _ _ Hinv), Hp. done.
  - rewrite (inv_pid _ _ _ Hinv). unfold expPid. rewrite Hsr. by destruct (mpc s).
  - intros Hend.
    destruct (ended_facts _ _ _ Hinv Hend) as (_ & Hst & Her & _ & _ & Hret).
    assert (mpc s ≠ L137) as Hne.
    { unfold ended in Hend. by destruct (mpc s). }
    rewrite Hst, Her, Hcs, (He Hne).
    unfold startError. rewrite Hsr. simpl.
    split; [apply Hret, Hpn|]. split; reflexivity.
Qed.

Lemma start_failure_witness :
  let w := linux (StartErr "fork/exec /bin/sh: no such file or directory") in
  let s := runOf w (mainSteps 6) sampleJob in
  (∃ s', cmdWorker w (mainSteps 6) (init sampleJob) = Some s' ∧ mpc s' = Returned ∧
         log s' = [CallStart false; Wrote FError; Wrote (FStatus JSFailed);
                   Wrote FFinishTime; Wrote FStdout; Wrote FStderr]) ∧
  proc s = NotStarted ∧ wpc s = W0 ∧ occ CallWait (log s) = 0%nat ∧
  Pid (job s) = Pid sampleJob ∧
  (ended s = true →
   mpc s = Returned ∧
   Error (job s) = "fork/exec /bin/sh: no such file or directory" ∧
   Status (job s) = JSFailed).
Proof.
  intros w s.
  apply (start_failure w sampleJob
           "fork/exec /bin/sh: no such file or directory" (mainSteps 6) s);
    vm_compute; reflexivity.
Defined.

(** *** The environment of the child *)







(** The child of a job without overrides and without a working
    directory inherits the environment of the agent, which names no key
    twice. *)
Lemma child_environment_inherited :
  let w := linux (StartOk 4242) in
  childEnv (runOf w (mainSteps 3) plainJob) = Some (Environ w).
Proof. vm_compute. reflexivity. Qed.

(** The two sample jobs that the literal reading gets wrong. *)
Lemma child_environment_samples :
  let w := linux (StartOk 4242) in
  childEnv (runOf w (mainSteps 3) dupEnvJob) = Some ["B=2"; "A=3"] ∧
  childEnv (runOf w (mainSteps 3) dirJob) =
    Some ["PATH=/usr/bin:/bin"; "HOME=/root"; "PWD=/tmp"].
Proof. vm_compute. split; reflexivity. Qed.

(** ** The handlers *)

Lemma trimSpaceAscii_empty : trimSpaceAscii "" = "".
Proof. reflexivity. Qed.

(** [RunCmdHandler] rejects an empty command text as an invalid
    parameter and changes nothing. *)
Lemma run_empty_cmd bk c body req :
  readAll c = Some body → unmarshal c = Some req → RunCmdReq.Cmd req = "" →
  RunCmdHandler bk c =
  reply bk (SetError ECInvalidParam "param cmd is empty" NewResponse).
Proof.
  intros Hb Hu Hc. unfold RunCmdHandler. by rewrite Hb, Hu, Hc.
Qed.

(** [QueryCmdHandler] rejects an identifier that is empty after
    trimming as an invalid parameter and changes nothing. *)
Lemma query_empty_id TrimSpace bk formId :
  TrimSpace formId = "" →
  QueryCmdHandler TrimSpace bk formId =
  reply bk (SetError ECInvalidParam "param id is empty" NewResponse).
Proof. intros Hid. unfold QueryCmdHandler. by rewrite Hid. Qed.

(** [CancelCmdHandler] has no such test: an identifier that is empty
    after trimming is looked up like any other. *)
Lemma cancel_empty_id TrimSpace bk formId :
  TrimSpace formId = "" → Get "" bk = None →
  CancelCmdHandler TrimSpace bk formId =
  reply bk (SetError ECJobNotFound "job not found: " NewResponse).
Proof. intros Hid Hg. unfold CancelCmdHandler. by rewrite Hid, Hg. Qed.

Lemma sampleRegistry_lookup id :
  Get id sampleRegistry = if decide (id = Id sampleJob) then Some sampleJob else None.
Proof.
  unfold Get, sampleRegistry, Add, JobBookkeeper.
  rewrite lookup_insert. destruct (decide (Id sampleJob = id)) as [<- | Hne].
  - by rewrite decide_True.
  - rewrite decide_False by done. apply lookup_empty.
Qed.

(** C7.  A cancel request never changes the registry.  For an
    identifier that is not registered the answer is "job not found"; for
    a job that is not running it is "job is not running", and neither
    invokes a cancellation handle; for a running job the handle of that
    job is invoked and the answer carries no error.  The identifier is
    the form value with surrounding white space removed. *)
Theorem cancel_handler_cases (TrimSpace : string → string) bk formId :
  let id := TrimSpace formId in
  let r := CancelCmdHandler TrimSpace bk formId in
  registry r = bk ∧
  (Get id bk = None →
   Code (resp r) = ECJobNotFound ∧ effects r = []) ∧
  (∀ j, Get id bk = Some j → Status j ≠ JSRunning →
        Code (resp r) = ECJobNotRunning ∧ effects r = []) ∧
  (∀ j, Get id bk = Some j → Status j = JSRunning →
        resp r = NewResponse ∧ effects r = [InvokeCancel j]).
Proof.
  intros id r. subst id r. unfold CancelCmdHandler.
  destruct (Get (TrimSpace formId) bk) as [j|] eqn:Hg.
  - destruct (decide (Status j = JSRunning)) as [Hr | Hr]; simpl.
    + split_and!; [done|done| |]; intros j' [= <-] ?; done.
    + split_and!; [done|done| |]; intros j' [= <-] ?; done.
  - simpl. split_and!; done.
Qed.

Lemma cancel_handler_cases_witness :
  let formId := " 123e4567-e89b-42d3-a456-426614174000 " in
  let r := CancelCmdHandler trimSpaceAscii sampleRegistry formId in
  resp r = NewResponse ∧ effects r = [InvokeCancel sampleJob].
Proof.
  intros formId r.
  destruct (cancel_handler_cases trimSpaceAscii sampleRegistry formId)
    as (_ & _ & _ & Hrun).
  apply (Hrun sampleJob).
  - rewrite sampleRegistry_lookup. reflexivity.
  - reflexivity.
Defined.

(** C8 (the code departs from it).  A request without a job identifier
    must be answered with the invalid-parameter category.
    [QueryCmdHandler] does so; [CancelCmdHandler] lacks the test and
    answers "job not found".  Neither changes the registry. *)
Theorem cancel_without_id_not_found :
  QueryCmdHandler trimSpaceAscii sampleRegistry "" =
    reply sampleRegistry (SetError ECInvalidParam "param id is empty" NewResponse) ∧
  CancelCmdHandler trimSpaceAscii sampleRegistry "" =
    reply sampleRegistry (SetError ECJobNotFound "job not found: " NewResponse).
Proof.
  split.
  - by apply query_empty_id.
  - apply cancel_empty_id; [done|]. by rewrite sampleRegistry_lookup.
Qed.

(** ** The second outline is an invariant *)

Lemma init_Inv2 w j0 : Inv2 w j0 (init j0).
Proof.
  constructor; simpl; try done.
  - unfold occ; simpl; lia.
  - intros [?|?]; done.
Qed.

Lemma stepMain_inv2 w j0 s s' :
  Inv w j0 s → Inv2 w j0 s → stepMain w s = Some s' → Inv2 w j0 s'.
Proof.
  intros [_ _ _ _ _ Hctl _ _ _ _ _ _ _]
         [Hid Hcmd Hdir Henv Hct Hd Hcl Hk0 Hk1 Hkf Hst Hout Herr] Hstep.
  destruct s as [j e so se c d cx p ce pc wp cs pn lg]; simpl in *.
  unfold stepMain in Hstep; simpl in Hstep.
  unfold ctl, final, failed, running, waited, unseen in Hctl.
  unfold doneExpected in Hd. unfold started in *. simpl in Hctl, Hd.
  destruct (startResult w) as [msg|pid] eqn:Hsr.
  all: destruct pc; destruct_and?; try done.
  all: run_main Hstep.
  all: simplify_eq/=.
  all: constructor; simpl; unfold doneExpected, started; simpl;
       rewrite ?Hsr, ?occ_snoc; simpl; try done; try lia.
  all: try (intros b; rewrite Hst; simpl; rewrite ?Hsr;
            destruct b; simpl; done).
  all: try (intros b; rewrite occ_snoc, Hst; simpl; rewrite ?Hsr;
            destruct b; simpl; done).
  all: try (intros Hw; rewrite (Hk0 Hw); done).
  all: try (intros [?|Hne]; apply Hkf; [by left|right];
            by rewrite Nat.add_0_r in Hne).
  intros [?|Hne]; [done|]. by rewrite Hk0 in Hne.
Qed.

Lemma stepWatch_inv2 w j0 b s s' :
  Inv2 w j0 s → stepWatch w b s = Some s' → Inv2 w j0 s'.
Proof.
  intros [Hid Hcmd Hdir Henv Hct Hd Hcl Hk0 Hk1 Hkf Hst Hout Herr] Hstep.
  destruct s as [j e so se c d cx p ce pc wp cs pn lg]; simpl in *.
  unfold stepWatch in Hstep; simpl in Hstep.
  destruct wp; run_main Hstep; simplify_eq/=.
  all: assert (occ CallKill lg = 0%nat) as Hz by (by apply Hk0).
  all: constructor; simpl; rewrite ?occ_snoc; simpl; try done; try lia.
  all: try (intros [?|?]; done).
  all: try (intros _; apply Hkf; by left).
  all: intros b0; rewrite occ_snoc, Hst; simpl; lia.
Qed.

(** While the deferred function copies a buffer, the child writes no
    more: it has been waited for, or it never ran. *)
Lemma copied_not_alive w j0 s :
  Inv w j0 s → stdoutWritten (mpc s) = true ∨ stderrWritten (mpc s) = true →
  proc s ≠ Alive.
Proof.
  intros [_ _ _ _ _ Hctl _ _ _ _ _ _ _] Hpc Hp.
  unfold ctl, final, failed, waited in Hctl. rewrite Hp in Hctl.
  destruct (mpc s); simpl in Hpc; try (by destruct Hpc);
    destruct (started w); destruct_and?; done.
Qed.

Lemma step_inv2 w j0 s ev s' :
  Inv w j0 s → Inv2 w j0 s → step w s ev = Some s' → Inv2 w j0 s'.
Proof.
  intros Hinv Hinv2 Hstep. destruct ev; simpl in Hstep.
  - eapply stepMain_inv2; eauto.
  - eapply stepWatch_inv2; eauto.
  - simplify_eq. destruct Hinv2. constructor; simpl; done.
  - destruct (proc s) eqn:Hp; simplify_eq. destruct Hinv2.
    constructor; simpl; done.
  - destruct (proc s) eqn:Hp; simplify_eq.
    pose proof (copied_not_alive _ _ _ Hinv) as Hna.
    destruct Hinv2. constructor; simpl; try done.
    intros Hpc. destruct Hna; auto.
  - destruct (proc s) eqn:Hp; simplify_eq.
    pose proof (copied_not_alive _ _ _ Hinv) as Hna.
    destruct Hinv2. constructor; simpl; try done.
    intros Hpc. destruct Hna; auto.
Qed.

Lemma cmdWorker_inv2 w j0 evs :
  ∀ s s', Inv w j0 s → Inv2 w j0 s → cmdWorker w evs s = Some s' → Inv2 w j0 s'.
Proof.
  induction evs as [|ev evs IH]; simpl; intros s s' Hinv Hinv2 Hex.
  - by simplify_eq.
  - destruct (step w s ev) as [s1|] eqn:Hs; [|done].
    eapply IH; [| |done].
    + eapply step_inv; eauto.
    + eapply step_inv2; eauto.
Qed.

Lemma run_invs w j evs s :
  cmdWorker w evs (init j) = Some s → Inv w j s ∧ Inv2 w j s.
Proof.
  intros Hex. split.
  - eapply cmdWorker_inv; [apply init_Inv|done].
  - eapply cmdWorker_inv2; [apply init_Inv|apply init_Inv2|done].
Qed.

(** ** The buffers hold what the child wrote *)

Lemma append_assoc (a b c : string) : (a +:+ b) +:+ c = a +:+ (b +:+ c).
Proof.
  induction a as [|x a IH]; [reflexivity|].
  change (String x ((a +:+ b) +:+ c) = String x (a +:+ (b +:+ c))).
  by rewrite IH.
Qed.

Lemma append_empty_r (a : string) : a +:+ "" = a.
Proof.
  induction a as [|x a IH]; [reflexivity|].
  change (String x (a +:+ "") = String x a). by rewrite IH.
Qed.

Lemma cmdWorker_buffers w evs :
  ∀ s s', cmdWorker w evs s = Some s' →
          stdout s' = stdout s +:+ stdoutOf evs ∧
          stderr s' = stderr s +:+ stderrOf evs.
Proof.
  induction evs as [|ev evs IH]; simpl; intros s s' Hex.
  - simplify_eq. by rewrite !append_empty_r.
  - destruct (step w s ev) as [s1|] eqn:Hs; [|done].
    destruct (IH _ _ Hex) as [-> ->]. clear IH Hex.
    destruct s as [j e so se c d cx p ce pc wp cs pn lg]; simpl in *.
    destruct ev; simpl in Hs.
    + unfold stepMain in Hs; simpl in Hs.
      destruct pc; run_main Hs; by simplify_eq/=.
    + unfold stepWatch in Hs; simpl in Hs.
      destruct wp; run_main Hs; by simplify_eq/=.
    + by simplify_eq/=.
    + destruct p; by simplify_eq/=.
    + destruct p; simplify_eq/=. by rewrite append_assoc.
    + destruct p; simplify_eq/=. by rewrite append_assoc.
Qed.

(** ** More of the worker: properties *)

(** X1.  When the worker has ended, on whichever way, the job holds
    everything the child wrote to its standard output and to its
    standard error, in the order it was written. *)
Theorem output_captured w j evs s :
  cmdWorker w evs (init j) = Some s → ended s = true →
  Stdout (job s) = stdoutOf evs ∧ Stderr (job s) = stderrOf evs.
Proof.
  intros Hex Hend.
  destruct (run_invs _ _ _ _ Hex) as [_ Hinv2].
  destruct (cmdWorker_buffers _ _ _ _ Hex) as [Ho He]. simpl in Ho, He.
  unfold ended in Hend.
  rewrite (inv2_out _ _ _ Hinv2), (inv2_err _ _ _ Hinv2), Ho, He;
    [done|by destruct (mpc s)..].
Qed.

Lemma output_captured_witness :
  let s := runOf (linux (StartOk 4242)) signalRun sampleJob in
  Stdout (job s) = stdoutOf signalRun ∧ Stderr (job s) = stderrOf signalRun.
Proof.
  intros s.
  apply (output_captured (linux (StartOk 4242)) sampleJob signalRun s);
    vm_compute; reflexivity.
Defined.

(** X2.  The worker never changes the identifier, the command, the
    working directory, the environment overrides or the creation time of
    its job. *)
Theorem request_fields_kept w j evs s :
  cmdWorker w evs (init j) = Some s →
  Id (job s) = Id j ∧ Cmd (job s) = Cmd j ∧ Dir (job s) = Dir j ∧
  Env (job s) = Env j ∧ CreateTime (job s) = CreateTime j.
Proof.
  intros Hex. destruct (run_invs _ _ _ _ Hex) as [_ Hinv2].
  destruct Hinv2. done.
Qed.

Lemma request_fields_kept_witness :
  let s := runOf (linux (StartOk 4242)) cancelRun sampleJob in
  Id (job s) = Id sampleJob ∧ Cmd (job s) = Cmd sampleJob ∧
  Dir (job s) = Dir sampleJob ∧ Env (job s) = Env sampleJob ∧
  CreateTime (job s) = CreateTime sampleJob.
Proof.
  intros s.
  apply (request_fields_kept (linux (StartOk 4242)) sampleJob cancelRun s);
    vm_compute; reflexivity.
Defined.

(** X3.  [cmd.Process.Kill()] is called at most once, and only after
    [job.cancelFunc] was invoked and the watcher has set [canceled]; in a
    run without an invocation of [job.cancelFunc] the child is never
    killed and [canceled] stays false. *)
Theorem kill_only_after_cancel w j evs s :
  cmdWorker w evs (init j) = Some s →
  (occ CallKill (log s) ≤ 1)%nat ∧
  (occ CallKill (log s) = 1%nat → ctxDone s = true ∧ canceled s = true) ∧
  (EvCancel ∉ evs →
   occ CallKill (log s) = 0%nat ∧ canceled s = false ∧ ctxDone s = false).
Proof.
  intros Hex. destruct (run_invs _ _ _ _ Hex) as [Hinv Hinv2].
  split; [apply Hinv2|]. split.
  - intros Hk. assert (canceled s = true) as Hc.
    { apply Hinv2. right. lia. }
    split; [by apply Hinv|done].
  - intros Hno. pose proof (cmdWorker_no_cancel _ _ _ _ Hex Hno) as Hcx.
    simpl in Hcx.
    assert (canceled s = false) as Hc.
    { destruct (canceled s) eqn:Hc; [|done].
      destruct (inv_flag _ _ _ Hinv Hc) as [Hd _]. congruence. }
    split_and!; [|done..].
    destruct (decide (occ CallKill (log s) = 0%nat)) as [|Hne]; [done|].
    rewrite (inv2_kflag _ _ _ Hinv2) in Hc; [done|by right].
Qed.

Lemma kill_only_after_cancel_witness :
  let s := runOf (linux (StartOk 4242)) cancelRun sampleJob in
  (occ CallKill (log s) ≤ 1)%nat ∧
  (occ CallKill (log s) = 1%nat → ctxDone s = true ∧ canceled s = true) ∧
  (EvCancel ∉ cancelRun →
   occ CallKill (log s) = 0%nat ∧ canceled s = false ∧ ctxDone s = false).
Proof.
  intros s.
  apply (kill_only_after_cancel (linux (StartOk 4242)) sampleJob cancelRun s);
    vm_compute; reflexivity.
Defined.

(** X4.  [cmd.Start()] is called once.  [cmd.Wait()] is called at most
    once and only after a successful start.  [doneC] is closed at most
    once, so [close] never panics; by the end of the worker it is closed
    exactly when the child was started, and [cmd.Wait()] has been
    called in exactly those runs. *)
Theorem calls_in_order w j evs s :
  cmdWorker w evs (init j) = Some s →
  occ (CallStart (started w)) (log s) = (if decide (mpc s = L137) then 0 else 1)%nat ∧
  occ (CallStart (negb (started w))) (log s) = 0%nat ∧
  (occ CallWait (log s) ≤ 1)%nat ∧
  (occ CloseDone (log s) ≤ 1)%nat ∧
  (occ CallWait (log s) = 1%nat → started w = true) ∧
  (ended s = true →
   occ CallWait (log s) = (if started w then 1 else 0)%nat ∧
   occ CloseDone (log s) = (if started w then 1 else 0)%nat).
Proof.
  intros Hex. destruct (run_invs _ _ _ _ Hex) as [Hinv Hinv2].
  pose proof (inv_wait _ _ _ Hinv) as Hw.
  pose proof (inv2_close _ _ _ Hinv2) as Hc.
  pose proof (inv2_done _ _ _ Hinv2) as Hd.
  pose proof (inv_ctl _ _ _ Hinv) as Hctl.
  rewrite !(inv2_start _ _ _ Hinv2), Hw, Hc.
  split_and!.
  - destruct (decide (mpc s = L137)); [done|]. by rewrite decide_True.
  - destruct (decide (mpc s = L137)); [done|].
    rewrite decide_False; [done|]. by destruct (started w).
  - destruct (proc s); lia.
  - destruct (doneC s); lia.
  - intros Hr. unfold ctl, final, failed, running, waited in Hctl.
    destruct (proc s) eqn:Hp; try done.
    destruct (mpc s), (started w); destruct_and?; done.
  - intros Hend. unfold ended in Hend. rewrite Hd.
    unfold ctl, final, failed, waited in Hctl. unfold doneExpected.
    destruct (mpc s); try done; destruct (started w); destruct_and?;
      destruct (proc s); try done; simplify_eq.
Qed.

Lemma calls_in_order_witness :
  let w := linux (StartOk 4242) in
  let s := runOf w cancelRun sampleJob in
  occ (CallStart (started w)) (log s) = (if decide (mpc s = L137) then 0 else 1)%nat ∧
  occ (CallStart (negb (started w))) (log s) = 0%nat ∧
  (occ CallWait (log s) ≤ 1)%nat ∧
  (occ CloseDone (log s) ≤ 1)%nat ∧
  (occ CallWait (log s) = 1%nat → started w = true) ∧
  (ended s = true →
   occ CallWait (log s) = (if started w then 1 else 0)%nat ∧
   occ CloseDone (log s) = (if started w then 1 else 0)%nat).
Proof.
  intros w s.
  apply (calls_in_order w sampleJob cancelRun s); vm_compute; reflexivity.
Defined.

(** X5.  Cancellation that takes effect: when the watcher has set
    [canceled] before the primary flow tests it and the child did not
    end with exit status 0, the worker returns, the job ends
    [JSCanceled], and its error text is the text of the wait error. *)
Theorem canceled_job_ends_Canceled w j evs1 evs2 s1 s2 ps :
  cmdWorker w evs1 (init j) = Some s1 →
  canceled s1 = true → untested (mpc s1) = true →
  cmdWorker w evs2 s1 = Some s2 → ended s2 = true →
  proc s2 = Reaped ps → ps ≠ Exited 0 →
  mpc s2 = Returned ∧ Status (job s2) = JSCanceled ∧
  Error (job s2) = ProcessState_String ps.
Proof.
  intros Hex1 Hc Hpc Hex2 Hend Hp Hps.
  assert (Inv w j s1) as Hinv1 by (eapply cmdWorker_inv; [apply init_Inv|done]).
  assert (Inv w j s2) as Hinv by (eapply cmdWorker_inv; done).
  assert (cancelSeen s2 = true) as Hseen.
  { destruct (cmdWorker_flag_seen _ _ _ _ _ Hinv1 Hex2 Hc (or_introl Hpc))
      as [Hu|]; [|done].
    unfold ended in Hend. by destruct (mpc s2). }
  destruct (override_outcome _ _ _ Hinv Hend Hseen) as (ps' & Hp' & He & _ & Hsome).
  rewrite Hp in Hp'. simplify_eq.
  assert (err s2 = Some (ExitError ps')) as Herr.
  { rewrite He. destruct ps' as [[| |]|]; done. }
  destruct Hsome as [Hret _]; [by rewrite Herr|].
  destruct (ended_facts _ _ _ Hinv Hend) as (_ & Hst & Her & _ & _ & Hr).
  rewrite Hst, Her, Hseen, Herr.
  destruct Hr as [Hr _]. rewrite (Hr Hret). done.
Qed.

Lemma canceled_job_ends_Canceled_witness :
  let w := linux (StartOk 4242) in
  let s2 := runOf w cancelRun sampleJob in
  mpc s2 = Returned ∧ Status (job s2) = JSCanceled ∧
  Error (job s2) = ProcessState_String (Signaled "signal: killed").
Proof.
  intros w s2.
  apply (canceled_job_ends_Canceled w sampleJob raceRunToFlag
           ([EvWatch false] ++ mainSteps 12)
           (runOf w raceRunToFlag sampleJob) s2);
    vm_compute; (reflexivity || discriminate).
Defined.

(** X6.  A child that is ended by a signal, in a run in which
    [job.cancelFunc] is never invoked, for a job as [RunCmdHandler]
    creates it: the worker runs to its end, the job ends [JSFailed] with
    the text of the wait error, and no exit code is recorded (the field
    keeps its zero value). *)
Theorem signaled_exit_Failed w req t u4 evs s desc :
  cmdWorker w evs (init (createdJob req t u4)) = Some s →
  EvCancel ∉ evs → EvExit (Signaled desc) ∈ evs →
  (∃ k s', cmdWorker w (mainSteps k) s = Some s' ∧ ended s' = true) ∧
  (ended s = true →
   mpc s = Returned ∧ Status (job s) = JSFailed ∧ ExitCode (job s) = 0 ∧
   Error (job s) = desc).
Proof.
  intros Hex Hno Hexit.
  set (j := createdJob req t u4) in *.
  assert (Inv w j s) as Hinv by (eapply cmdWorker_inv; [apply init_Inv|done]).
  pose proof (cmdWorker_exit _ _ _ _ _ _ (init_Inv w j) Hex Hexit) as Hp.
  pose proof (cmdWorker_no_cancel _ _ _ _ Hex Hno) as Hcx. simpl in Hcx.
  split.
  { eapply worker_ends; [done|]. right. by destruct Hp as [-> | ->]. }
  intros Hend.
  destruct (ended_facts _ _ _ Hinv Hend) as (Hf & Hst & Her & Hec & _ & Hret).
  assert (cancelSeen s = false) as Hcs.
  { destruct (cancelSeen s) eqn:Hcs; [|done].
    rewrite (seen_cancel _ _ _ Hinv Hcs) in Hcx. done. }
  unfold final, failed, waited in Hf. rewrite Hcs in Hf.
  destruct (started w).
  - destruct Hf as [(_ & _ & Hw) Hpn].
    destruct Hp as [Hp | Hp]; rewrite Hp in Hw; [done|].
    simpl in Hw.
    rewrite Hst, Her, Hec, Hcs, Hw. simpl.
    split_and!; try done. by apply Hret.
  - destruct Hf as (_ & _ & Hns & _).
    by destruct Hp as [Hp | Hp]; rewrite Hp in Hns.
Qed.

Lemma signaled_exit_Failed_witness :
  let w := linux (StartOk 4242) in
  let s := runOf w signalRun sampleJob in
  (∃ k s', cmdWorker w (mainSteps k) s = Some s' ∧ ended s' = true) ∧
  (ended s = true →
   mpc s = Returned ∧ Status (job s) = JSFailed ∧ ExitCode (job s) = 0 ∧
   Error (job s) = "signal: segmentation fault").
Proof.
  intros w s.
  apply (signaled_exit_Failed w sampleReq 1600000000
           "123e4567-e89b-42d3-a456-426614174000" signalRun s).
  - vm_compute; reflexivity.
  - apply (bool_decide_unpack _). vm_compute. exact I.
  - apply (bool_decide_unpack _). vm_compute. exact I.
Defined.

(** X7.  As long as the child has not been waited for, the job is
    [JSRunning] and its finish time is unset, so a cancel request for it
    is accepted: [CancelCmdHandler] invokes the handle of that job. *)
Theorem running_until_reaped (TrimSpace : string → string) w j evs s bk formId :
  Status j = JSRunning →
  cmdWorker w evs (init j) = Some s →
  proc s = Alive ∨ (∃ ps, proc s = Terminated ps) →
  Get (TrimSpace formId) bk = Some (job s) →
  Status (job s) = JSRunning ∧ FinishTime (job s) = FinishTime j ∧
  CancelCmdHandler TrimSpace bk formId =
    mkResult NewResponse bk [InvokeCancel (job s)].
Proof.
  intros Hrun Hex Hp Hg.
  assert (Inv w j s) as Hinv by (eapply cmdWorker_inv; [apply init_Inv|done]).
  pose proof (inv_status _ _ _ Hinv) as Hst.
  pose proof (inv_ftime _ _ _ Hinv) as Hft.
  pose proof (inv_ctl _ _ _ Hinv) as Hctl.
  assert (mpc s = L145 ∨ mpc s = L150 ∨ mpc s = L161) as Hpc.
  { unfold ctl, final, failed, waited in Hctl.
    destruct (mpc s); auto; destruct (started w); destruct_and?;
      destruct Hp as [Hp|[ps Hp]]; rewrite Hp in *; done. }
  assert (Status (job s) = JSRunning ∧ FinishTime (job s) = FinishTime j)
    as [Hs Hf].
  { unfold expStatus in Hst.
    destruct Hpc as [Hpc|[Hpc|Hpc]]; rewrite Hpc in Hst, Hft; simpl in *;
      split; congruence. }
  split_and!; [done..|].
  unfold CancelCmdHandler. rewrite Hg. by rewrite decide_True.
Qed.

Lemma running_until_reaped_witness :
  let w := linux (StartOk 4242) in
  let s := runOf w (mainSteps 3) sampleJob in
  let bk : JobBookkeeper := Add (job s) ∅ in
  Status (job s) = JSRunning ∧ FinishTime (job s) = FinishTime sampleJob ∧
  CancelCmdHandler trimSpaceAscii bk "123e4567-e89b-42d3-a456-426614174000" =
    mkResult NewResponse bk [InvokeCancel (job s)].
Proof.
  intros w s bk.
  apply (running_until_reaped trimSpaceAscii w sampleJob (mainSteps 3) s bk).
  - reflexivity.
  - vm_compute; reflexivity.
  - left. vm_compute; reflexivity.
  - unfold bk, Get, Add, JobBookkeeper. apply lookup_insert_eq.
Defined.

(** X8.  When the worker has ended, through a return or through the
    panic, the job is in a terminal status and its finish time is set;
    a cancel request for it is refused with "job is not running" and
    invokes nothing. *)
Theorem ended_job_terminal (TrimSpace : string → string) w j evs s bk formId :
  cmdWorker w evs (init j) = Some s → ended s = true →
  Get (TrimSpace formId) bk = Some (job s) →
  Status (job s) ≠ JSRunning ∧ FinishTime (job s) = now w ∧
  Code (resp (CancelCmdHandler TrimSpace bk formId)) = ECJobNotRunning ∧
  effects (CancelCmdHandler TrimSpace bk formId) = [] ∧
  registry (CancelCmdHandler TrimSpace bk formId) = bk.
Proof.
  intros Hex Hend Hg.
  assert (Inv w j s) as Hinv by (eapply cmdWorker_inv; [apply init_Inv|done]).
  destruct (ended_facts _ _ _ Hinv Hend) as (_ & Hst & _).
  assert (Status (job s) ≠ JSRunning) as Hne.
  { rewrite Hst. destruct (cancelSeen s && negb (panicking s)); [done|].
    by destruct (err s). }
  split; [done|]. split.
  { rewrite (inv_ftime _ _ _ Hinv). unfold ended in Hend.
    by destruct (mpc s). }
  unfold CancelCmdHandler. rewrite Hg. by rewrite decide_False.
Qed.

Lemma ended_job_terminal_witness :
  let w := linux (StartOk 4242) in
  let s := runOf w raceRun sampleJob in
  let bk : JobBookkeeper := Add (job s) ∅ in
  let formId := "123e4567-e89b-42d3-a456-426614174000" in
  Status (job s) ≠ JSRunning ∧ FinishTime (job s) = now w ∧
  Code (resp (CancelCmdHandler trimSpaceAscii bk formId)) = ECJobNotRunning ∧
  effects (CancelCmdHandler trimSpaceAscii bk formId) = [] ∧
  registry (CancelCmdHandler trimSpaceAscii bk formId) = bk.
Proof.
  intros w s bk formId.
  apply (ended_job_terminal trimSpaceAscii w sampleJob raceRun s bk formId).
  - vm_compute; reflexivity.
  - vm_compute; reflexivity.
  - unfold bk, Get, Add, JobBookkeeper. apply lookup_insert_eq.
Defined.

(** The child of a worker that has ended has been waited for, or never
    ran. *)
Lemma ended_proc w j0 s :
  Inv w j0 s → ended s = true →
  if started w then ∃ ps, proc s = Reaped ps else proc s = NotStarted.
Proof.
  intros Hinv Hend. pose proof (inv_ctl _ _ _ Hinv) as Hctl.
  unfold ended in Hend. unfold ctl, final, failed, waited in Hctl.
  destruct (mpc s); try done; destruct (started w); destruct_and?;
    try done; destruct (proc s); try done; eauto.
Qed.

(** X9.  Once the worker has ended, nothing that happens later changes
    the job: not a late invocation of [job.cancelFunc], and not the
    watcher, which may still set [canceled] and call
    [cmd.Process.Kill()]. *)
Theorem ended_job_frozen w j evs1 evs2 s1 s2 :
  cmdWorker w evs1 (init j) = Some s1 → ended s1 = true →
  cmdWorker w evs2 s1 = Some s2 →
  job s2 = job s1 ∧ ended s2 = true ∧ proc s2 = proc s1.
Proof.
  intros Hex1 Hend Hex2.
  assert (Inv w j s1) as Hinv1 by (eapply cmdWorker_inv; [apply init_Inv|done]).
  assert (Inv w j s2) as Hinv2 by (eapply cmdWorker_inv; done).
  destruct (cmdWorker_ended _ _ _ _ Hex2 Hend) as [Hj Hpc].
  assert (ended s2 = true) as Hend2 by (unfold ended in *; by rewrite Hpc).
  split; [done|]. split; [done|].
  pose proof (ended_proc _ _ _ Hinv1 Hend) as Hp1.
  pose proof (ended_proc _ _ _ Hinv2 Hend2) as Hp2.
  destruct (started w); [|congruence].
  destruct Hp1 as [ps1 Hp1], Hp2 as [ps2 Hp2].
  destruct (cmdWorker_endedWith _ _ _ _ _ _ Hinv1 Hex2 (or_intror Hp1));
    congruence.
Qed.

Lemma ended_job_frozen_witness :
  let w := linux (StartOk 4242) in
  let s1 := runOf w (exitRun 0) sampleJob in
  let s2 := runOf w (exitRun 0 ++ [EvCancel; EvWatch true; EvWatch true;
                                   EvWatch true])%list sampleJob in
  job s2 = job s1 ∧ ended s2 = true ∧ proc s2 = proc s1.
Proof.
  intros w s1 s2.
  apply (ended_job_frozen w sampleJob (exitRun 0)
           [EvCancel; EvWatch true; EvWatch true; EvWatch true] s1 s2);
    vm_compute; reflexivity.
Defined.

(** X10.  Once the watcher has been spawned, and so by the time the
    worker has ended after a successful start, the job carries the
    process id of the child. *)
Theorem pid_recorded w j evs s pid :
  startResult w = StartOk pid →
  cmdWorker w evs (init j) = Some s →
  wpc s ≠ W0 ∨ ended s = true →
  Pid (job s) = pid.
Proof.
  intros Hsr Hex Hw.
  assert (Inv w j s) as Hinv by (eapply cmdWorker_inv; [apply init_Inv|done]).
  rewrite (inv_pid _ _ _ Hinv). unfold expPid. rewrite Hsr.
  pose proof (inv_ctl _ _ _ Hinv) as Hctl.
  unfold ctl, failed, running, started in Hctl. rewrite Hsr in Hctl.
  unfold ended in Hw.
  destruct (mpc s); try done; destruct_and?; by destruct Hw.
Qed.

Lemma pid_recorded_witness :
  let w := linux (StartOk 4242) in
  Pid (job (runOf w (mainSteps 3) sampleJob)) = 4242.
Proof.
  intros w.
  apply (pid_recorded w sampleJob (mainSteps 3) (runOf w (mainSteps 3) sampleJob));
    [reflexivity|vm_compute; reflexivity|left; vm_compute; discriminate].
Defined.

(** X11.  A cancellation that the primary flow does not see at line 182
    changes nothing: the worker returns and the job keeps the status and
    the error text of the exit classification, although
    [job.cancelFunc] may have been invoked and [canceled] may be set by
    the end. *)
Theorem unseen_cancel_keeps_classification w j evs s ps :
  cmdWorker w evs (init j) = Some s → ended s = true →
  cancelSeen s = false → proc s = Reaped ps →
  mpc s = Returned ∧
  Status (job s) = classify (waitError ps) ∧
  Error (job s) = match waitError ps with
                  | Some e => err_Error e
                  | None => Error j
                  end.
Proof.
  intros Hex Hend Hcs Hp.
  assert (Inv w j s) as Hinv by (eapply cmdWorker_inv; [apply init_Inv|done]).
  destruct (ended_facts _ _ _ Hinv Hend) as (Hf & Hst & Her & _ & _ & Hret).
  unfold final, failed, waited in Hf. rewrite Hcs, Hp in Hf.
  destruct (started w); [|destruct_and?; done].
  destruct Hf as [(_ & _ & He) Hpn].
  rewrite Hst, Her, Hcs, He. split; [by apply Hret|done].
Qed.

Lemma unseen_cancel_keeps_classification_witness :
  let w := linux (StartOk 4242) in
  let s := runOf w lateCancelRun sampleJob in
  (ctxDone s = true ∧ canceled s = true) ∧
  mpc s = Returned ∧
  Status (job s) = classify (waitError (Exited 0)) ∧
  Error (job s) = match waitError (Exited 0) with
                  | Some e => err_Error e
                  | None => Error sampleJob
                  end.
Proof.
  intros w s. split; [vm_compute; split; reflexivity|].
  apply (unseen_cancel_keeps_classification w sampleJob lateCancelRun s (Exited 0));
    vm_compute; reflexivity.
Defined.

(** X12.  The watcher does not outlive the worker for lack of a signal:
    after a failed start it was never spawned, and once a started worker
    has ended the watcher can always run to its end, in at most three
    steps, without touching the job. *)
Theorem watcher_exits w j evs s b :
  cmdWorker w evs (init j) = Some s → ended s = true →
  (started w = false → wpc s = W0) ∧
  (started w = true →
   ∃ k s', (k ≤ 3)%nat ∧
           cmdWorker w (replicate k (EvWatch b)) s = Some s' ∧
           wpc s' = Wend ∧ job s' = job s).
Proof.
  intros Hex Hend. destruct (run_invs _ _ _ _ Hex) as [Hinv Hinv2].
  pose proof (inv_ctl _ _ _ Hinv) as Hctl.
  pose proof (inv2_done _ _ _ Hinv2) as Hd.
  pose proof (inv_watch _ _ _ Hinv) as Hwa.
  unfold ended in Hend. unfold doneExpected in Hd.
  unfold ctl, final, failed, waited in Hctl.
  split.
  - intros Hs. rewrite Hs in Hctl.
    destruct (mpc s); try done; by destruct_and?.
  - intros Hs. rewrite Hs in Hctl.
    assert (doneC s = true ∧ wpc s ≠ W0) as [Hdc Hw0].
    { destruct (mpc s); try done; destruct_and?; split; congruence. }
    clear Hctl Hd Hend Hex Hinv Hinv2.
    destruct s as [jb e so se c d cx p ce pc wp cs pn lg]; simpl in *.
    subst d.
    destruct wp; try done.
    + destruct cx, b.
      * exists 3%nat. eexists. split; [lia|]. simpl. split; [reflexivity|done].
      * exists 1%nat. eexists. split; [lia|]. simpl. split; [reflexivity|done].
      * exists 1%nat. eexists. split; [lia|]. simpl. split; [reflexivity|done].
      * exists 1%nat. eexists. split; [lia|]. simpl. split; [reflexivity|done].
    + exists 2%nat. eexists. split; [lia|]. simpl. split; [reflexivity|done].
    + exists 1%nat. eexists. split; [lia|]. simpl. split; [reflexivity|done].
    + exists 0%nat. eexists. split; [lia|]. simpl. split; [reflexivity|done].
Qed.

Lemma watcher_exits_witness :
  let w := linux (StartOk 4242) in
  let s := runOf w (exitRun 7) sampleJob in
  (started w = false → wpc s = W0) ∧
  (started w = true →
   ∃ k s', (k ≤ 3)%nat ∧
           cmdWorker w (replicate k (EvWatch true)) s = Some s' ∧
           wpc s' = Wend ∧ job s' = job s).
Proof.
  intros w s.
  apply (watcher_exits w sampleJob (exitRun 7) s true); vm_compute; reflexivity.
Defined.

(** ** The handlers: properties *)

(** X13.  [RunCmdHandler] accepts a request exactly when the body can
    be read and decoded, the command is not empty and an identifier can
    be generated; an empty command is the one case of the
    invalid-parameter category; and a request that is not accepted
    leaves the registry as it was and starts no worker. *)
Theorem run_handler_outcomes bk c :
  let r := RunCmdHandler bk c in
  (Code (resp r) = ECNone ↔
   ∃ body req u4, readAll c = Some body ∧ unmarshal c = Some req ∧
                  RunCmdReq.Cmd req ≠ "" ∧ newV4 c = Some u4) ∧
  (Code (resp r) = ECInvalidParam ↔
   ∃ body req, readAll c = Some body ∧ unmarshal c = Some req ∧
               RunCmdReq.Cmd req = "") ∧
  (Code (resp r) ≠ ECNone → registry r = bk ∧ effects r = []).
Proof.
  intros r. subst r. unfold RunCmdHandler.
  destruct (readAll c) as [body|]; [|simpl; split_and!; [split| split|done];
    [done|intros (?&?&?&?&_); done|done|intros (?&?&?&_); done]].
  destruct (unmarshal c) as [req|]; [|simpl; split_and!; [split| split|done];
    [done|intros (?&?&?&?&?&_); done|done|intros (?&?&?&?&_); done]].
  destruct (String.eqb_spec (RunCmdReq.Cmd req) "") as [He|Hne]; simpl.
  - split_and!; [split|split|done]; try done.
    + intros (?&?&?&?&?&?&_). congruence.
    + intros _. eauto.
  - destruct (newV4 c) as [u4|]; simpl.
    + split_and!; [split|split|done]; try done.
      * intros _. exists body, req, u4. done.
      * intros (?&?&?&?&?). congruence.
    + split_and!; [split|split|done]; try done.
      * intros (?&?&?&?&?&?&?). done.
      * intros (?&?&?&?&?). congruence.
Qed.

(** The accepted path of [RunCmdHandler], lines 73-105. *)
Lemma run_accepted_result bk c body req u4 :
  readAll c = Some body → unmarshal c = Some req →
  RunCmdReq.Cmd req ≠ "" → newV4 c = Some u4 →
  RunCmdHandler bk c =
  mkResult
    (SetData (if RunCmdReq.Async req
              then DAsyncRun u4 (timeNow c) else DSyncRun u4) NewResponse)
    (Add (createdJob req (timeNow c) u4) bk)
    [RunWorker (createdJob req (timeNow c) u4) (RunCmdReq.Async req)].
Proof.
  intros Hb Hu Hc Hv. unfold RunCmdHandler. rewrite Hb, Hu, Hv.
  by destruct (String.eqb_spec (RunCmdReq.Cmd req) "").
Qed.

(** X14.  An accepted request registers the new job under the generated
    identifier and leaves every other identifier as it was; the job is
    [JSRunning] with the request's fields, the time of the clock as
    creation time, an unset finish time and no results; exactly one
    worker is started, on that job, in the mode the request asks for;
    and the answer is the identifier with the creation time (async) or a
    reference to the job for when the worker has returned (sync). *)
Theorem run_accepted bk c body req u4 :
  readAll c = Some body → unmarshal c = Some req →
  RunCmdReq.Cmd req ≠ "" → newV4 c = Some u4 →
  let job := createdJob req (timeNow c) u4 in
  let r := RunCmdHandler bk c in
  effects r = [RunWorker job (RunCmdReq.Async req)] ∧
  Get u4 (registry r) = Some job ∧
  (∀ id, id ≠ u4 → Get id (registry r) = Get id bk) ∧
  resp r = SetData (if RunCmdReq.Async req
                    then DAsyncRun u4 (timeNow c) else DSyncRun u4) NewResponse ∧
  job = mkJob u4 (RunCmdReq.Cmd req) (RunCmdReq.Dir req) (RunCmdReq.Env req)
              JSRunning (timeNow c) 0 0 "" "" 0 "".
Proof.
  intros Hb Hu Hc Hv job r. subst r.
  rewrite (run_accepted_result _ _ _ _ _ Hb Hu Hc Hv).
  simpl. unfold Get, Add, JobBookkeeper. simpl.
  split_and!; try done.
  - apply lookup_insert_eq.
  - intros id Hne. by apply lookup_insert_ne.
Qed.

Lemma run_accepted_witness :
  let c := mkRunCall (Some "{...}") (Some sampleReq) 1600000000
                     (Some "123e4567-e89b-42d3-a456-426614174000") in
  let u4 := "123e4567-e89b-42d3-a456-426614174000" in
  let r := RunCmdHandler ∅ c in
  effects r = [RunWorker sampleJob true] ∧
  Get u4 (registry r) = Some sampleJob ∧
  (∀ id, id ≠ u4 → Get id (registry r) = Get id ∅) ∧
  resp r = SetData (DAsyncRun u4 1600000000) NewResponse ∧
  sampleJob = mkJob u4 "sleep 5; exit 7" "/tmp" (Some ["LANG=C"])
                    JSRunning 1600000000 0 0 "" "" 0 "".
Proof.
  intros c u4 r.
  apply (run_accepted ∅ c "{...}" sampleReq u4); try reflexivity.
  vm_compute. discriminate.
Defined.



(** X16.  A query never changes the registry and invokes nothing.  An
    identifier that is empty after trimming is an invalid parameter, an
    identifier that is not registered gives "job not found", and a
    registered one gives the job as it is now, whatever its status. *)
Theorem query_handler_cases (TrimSpace : string → string) bk formId :
  let id := TrimSpace formId in
  let r := QueryCmdHandler TrimSpace bk formId in
  registry r = bk ∧ effects r = [] ∧
  (id = "" → Code (resp r) = ECInvalidParam ∧ Payload (resp r) = DNone) ∧
  (id ≠ "" → Get id bk = None →
   Code (resp r) = ECJobNotFound ∧ Payload (resp r) = DNone) ∧
  (∀ j, id ≠ "" → Get id bk = Some j → resp r = SetData (DJob j) NewResponse).
Proof.
  intros id r. subst id r. unfold QueryCmdHandler.
  destruct (String.eqb_spec (TrimSpace formId) "") as [He|Hne]; simpl.
  - split_and!; done.
  - destruct (Get (TrimSpace formId) bk) as [j|]; simpl; split_and!; try done.
    by intros j' _ [= <-].
Qed.

Lemma query_handler_cases_witness :
  let formId := "123e4567-e89b-42d3-a456-426614174000  " in
  resp (QueryCmdHandler trimSpaceAscii sampleRegistry formId) =
  SetData (DJob sampleJob) NewResponse.
Proof.
  intros formId.
  destruct (query_handler_cases trimSpaceAscii sampleRegistry formId)
    as (_ & _ & _ & _ & Hfound).
  apply (Hfound sampleJob).
  - vm_compute. discriminate.
  - rewrite sampleRegistry_lookup. reflexivity.
Defined.

(** X17.  Query and cancel address the same job: when a query shows a
    job for a form value, a cancel request with that form value invokes
    the handle of exactly that job if it is running and is refused as
    "job is not running" otherwise; it is never "job not found". *)
Theorem query_cancel_agree (TrimSpace : string → string) bk formId j :
  Payload (resp (QueryCmdHandler TrimSpace bk formId)) = DJob j →
  let r := CancelCmdHandler TrimSpace bk formId in
  Code (resp r) ≠ ECJobNotFound ∧
  (Status j = JSRunning → r = mkResult NewResponse bk [InvokeCancel j]) ∧
  (Status j ≠ JSRunning → Code (resp r) = ECJobNotRunning ∧ effects r = []).
Proof.
  unfold QueryCmdHandler, CancelCmdHandler.
  destruct (String.eqb (TrimSpace formId) ""); simpl; [done|].
  destruct (Get (TrimSpace formId) bk) as [j'|]; simpl; [|done].
  intros [= ->].
  destruct (decide (Status j = JSRunning)); simpl; split_and!; done.
Qed.

Lemma query_cancel_agree_witness :
  let formId := "123e4567-e89b-42d3-a456-426614174000" in
  let r := CancelCmdHandler trimSpaceAscii sampleRegistry formId in
  Code (resp r) ≠ ECJobNotFound ∧
  (Status sampleJob = JSRunning →
   r = mkResult NewResponse sampleRegistry [InvokeCancel sampleJob]) ∧
  (Status sampleJob ≠ JSRunning →
   Code (resp r) = ECJobNotRunning ∧ effects r = []).
Proof.
  intros formId r.
  apply (query_cancel_agree trimSpaceAscii sampleRegistry formId sampleJob).
  unfold QueryCmdHandler. simpl. rewrite sampleRegistry_lookup. reflexivity.
Defined.

(** ** The service wrapper: properties *)

Lemma initService_inv : ServiceInv initService.
Proof.
  unfold ServiceInv; simpl. split_and!; [done|split; done|auto|].
  intros [?|?]; done.
Qed.

Lemma stepService_inv s ev s' :
  ServiceInv s → stepService s ev = Some s' → ServiceInv s'.
Proof.
  unfold ServiceInv. intros (Hwg & Hg & Hex & Hcl) Hs.
  destruct s as [[d e n] g p]; simpl in *.
  destruct g; simpl in Hwg; subst n.
  all: destruct ev, p; simpl in Hs; unfold stepDriver, stepStart in Hs;
       simpl in Hs; try done.
  all: destruct e; simplify_eq/=.
  all: try (destruct Hg as [Hg1 Hg2]; first [by specialize (Hg1 eq_refl)
                                           | by specialize (Hg2 eq_refl)]).
  all: try (by destruct_and?; destruct_or?).
  all: try (by discriminate Hcl; auto).
  all: split_and!; try done; try (split; done); auto.
  all: intros [?|?]; done.
Qed.

Lemma runService_inv evs :
  ∀ s s', ServiceInv s → runService evs s = Some s' → ServiceInv s'.
Proof.
  induction evs as [|ev evs IH]; simpl; intros s s' Hinv Hr.
  - by simplify_eq.
  - destruct (stepService s ev) as [s1|] eqn:Hs; [|done].
    eapply IH; [|done]. eapply stepService_inv; eauto.
Qed.

Lemma runService_app evs1 evs2 s :
  runService (evs1 ++ evs2) s =
  match runService evs1 s with
  | Some s1 => runService evs2 s1
  | None => None
  end.
Proof.
  revert s. induction evs1 as [|ev evs1 IH]; simpl; intros s; [done|].
  destruct (stepService s ev); [apply IH|done].
Qed.

(** X18.  Once [server.start] has executed [s.wg.Add(2)], a call of
    [server.stop] never gets past [s.wg.Wait()]: nothing in the program
    calls [Done], so [program.Stop] neither returns nor reaches its last
    log line, and it does not panic either. *)
Theorem stop_blocks_after_Add evs1 evs2 s1 s2 :
  runService evs1 initService = Some s1 →
  added (gpc s1) = true → pastWait (dpc s1) = false →
  runService evs2 s1 = Some s2 →
  added (gpc s2) = true ∧ pastWait (dpc s2) = false ∧
  (dpc s1 ≠ Ppanic → dpc s2 ≠ Ppanic).
Proof.
  intros Hr1 Ha Hp Hr2.
  pose proof (runService_inv _ _ _ initService_inv Hr1) as Hinv.
  clear Hr1. revert s1 Hinv Ha Hp Hr2.
  induction evs2 as [|ev evs2 IH]; simpl; intros s1 Hinv Ha Hp Hr2.
  - by simplify_eq.
  - destruct (stepService s1 ev) as [s'|] eqn:Hs; [|done].
    pose proof (stepService_inv _ _ _ Hinv Hs) as Hinv'.
    assert (added (gpc s') = true ∧ pastWait (dpc s') = false ∧
            (dpc s1 ≠ Ppanic → dpc s' ≠ Ppanic)) as (Ha' & Hp' & Hpn).
    { destruct Hinv as (Hwg & Hg & Hex & Hcl).
      destruct s1 as [[d e n] g p]; simpl in *.
      destruct g; try done; simpl in Hwg; subst n.
      all: destruct ev, p; simpl in Hs; unfold stepDriver, stepStart in Hs;
           simpl in Hs; try done.
      all: destruct e; simplify_eq/=; try done.
      all: try (destruct Hg as [_ Hg]; by specialize (Hg eq_refl)).
      all: by destruct_and?; destruct_or?. }
    destruct (IH s' Hinv' Ha' Hp' Hr2) as (? & ? & ?). auto.
Qed.

Lemma stop_blocks_after_Add_witness :
  let s1 := default initService
              (runService [EvDriver; EvGoroutine; EvGoroutine; EvGoroutine]
                          initService) in
  let s2 := default initService
              (runService [EvDriver; EvDriver; EvGoroutine; EvGoroutine] s1) in
  added (gpc s2) = true ∧ pastWait (dpc s2) = false ∧
  (dpc s1 ≠ Ppanic → dpc s2 ≠ Ppanic).
Proof.
  intros s1 s2.
  apply (stop_blocks_after_Add
           [EvDriver; EvGoroutine; EvGoroutine; EvGoroutine]
           [EvDriver; EvDriver; EvGoroutine; EvGoroutine] s1 s2);
    vm_compute; reflexivity.
Defined.

(** X19.  A call of [server.stop] whose [close(s.exit)] runs before the
    goroutine of [server.start] has made the channel panics: the channel
    is still nil. *)
Theorem stop_panics_before_make evs1 evs2 s1 s2 :
  runService evs1 initService = Some s1 →
  dpc s1 = T33 → gpc s1 = S21 ∨ gpc s1 = S23 →
  runService (EvDriver :: evs2) s1 = Some s2 →
  dpc s2 = Ppanic.
Proof.
  intros Hr1 Hd Hg Hr2.
  pose proof (runService_inv _ _ _ initService_inv Hr1) as (_ & _ & Hex & _).
  assert (server.exit (svr s1) = ChNil) as Hnil.
  { destruct (server.exit (svr s1)); [done|..];
      destruct Hg as [Hg|Hg]; rewrite Hg in Hex; simpl in Hex;
      destruct_and?; destruct_or?; done. }
  simpl in Hr2. unfold stepDriver in Hr2. rewrite Hd, Hnil in Hr2.
  clear Hr1 Hd Hg Hex Hnil.
  set (s := mkService (svr s1) (gpc s1) Ppanic) in *.
  assert (dpc s = Ppanic) as Hp by done. clearbody s.
  revert s Hp Hr2. induction evs2 as [|ev evs2 IH]; simpl; intros s Hp Hr2.
  - by simplify_eq.
  - destruct (stepService s ev) as [s'|] eqn:Hs; [|done].
    apply (IH s'); [|done].
    destruct s as [v g p]; simpl in *. subst p.
    destruct ev; simpl in Hs; unfold stepDriver, stepStart in Hs; simpl in Hs;
      [done|]. destruct g; by simplify_eq/=.
Qed.

Lemma stop_panics_before_make_witness :
  let s1 := default initService
              (runService [EvDriver; EvDriver; EvGoroutine] initService) in
  let s2 := default initService
              (runService [EvDriver; EvGoroutine; EvGoroutine] s1) in
  dpc s2 = Ppanic.
Proof.
  intros s1 s2.
  apply (stop_panics_before_make [EvDriver; EvDriver; EvGoroutine]
           [EvGoroutine; EvGoroutine] s1 s2);
    [vm_compute; reflexivity|vm_compute; reflexivity
    |right; vm_compute; reflexivity|vm_compute; reflexivity].
Defined.

(** X20.  [server.stop] gets past [s.wg.Wait()] only through the gap
    between lines 23 and 25 of [server.start]: in every run in which it
    does, [s.wg.Wait()] was executed when the goroutine had made the
    exit channel and had not yet executed [s.wg.Add(2)]. *)
Theorem stop_returns_only_in_gap evs s :
  runService evs initService = Some s → pastWait (dpc s) = true →
  ∃ evs1 evs2 s1,
    evs = (evs1 ++ EvDriver :: evs2)%list ∧
    runService evs1 initService = Some s1 ∧
    dpc s1 = T35 ∧ gpc s1 = S25 ∧
    server.exit (svr s1) = ChClosed ∧ server.wg (svr s1) = 0.
Proof.
  revert s. induction evs as [|ev evs IH] using rev_ind; intros s Hr Hp.
  - simpl in Hr. by simplify_eq.
  - rewrite runService_app in Hr.
    destruct (runService evs initService) as [s0|] eqn:Hr0; [|done].
    simpl in Hr. destruct (stepService s0 ev) as [s'|] eqn:Hs; [|done].
    simplify_eq.
    destruct (pastWait (dpc s0)) eqn:Hp0.
    + destruct (IH s0 eq_refl Hp0) as (evs1 & evs2 & s1 & -> & H1 & H2).
      exists evs1, (evs2 ++ [ev])%list, s1.
      split; [by rewrite <- app_assoc|done].
    + pose proof (runService_inv _ _ _ initService_inv Hr0) as (Hwg & Hg & Hex & Hcl).
      exists evs, [], s0. split; [|split; [done|]].
      * f_equal. f_equal.
        destruct s0 as [v g p]; simpl in *.
        destruct ev; [done|].
        simpl in Hs. unfold stepStart in Hs.
        destruct g; simplify_eq/=; congruence.
      * destruct s0 as [[d e n] g p]; simpl in *.
        destruct g; simpl in Hwg; subst n.
        all: destruct ev, p; simpl in Hs; unfold stepDriver, stepStart in Hs;
             simpl in Hs; try done.
        all: destruct e; simplify_eq/=; try done.
        all: try (by destruct_and?; destruct_or?).
        all: by discriminate Hcl; auto.
Qed.

Lemma stop_returns_only_in_gap_witness :
  let evs := [EvDriver; EvGoroutine; EvGoroutine; EvDriver; EvDriver;
              EvDriver; EvDriver; EvGoroutine] in
  ∃ evs1 evs2 s1,
    evs = (evs1 ++ EvDriver :: evs2)%list ∧
    runService evs1 initService = Some s1 ∧
    dpc s1 = T35 ∧ gpc s1 = S25 ∧
    server.exit (svr s1) = ChClosed ∧ server.wg (svr s1) = 0.
Proof.
  intros evs.
  apply (stop_returns_only_in_gap evs
           (default initService (runService evs initService)));
    vm_compute; reflexivity.
Defined.
